(** * imdb_rating_predict_model.py: the model-selection script

    A shallow embedding of [src/imdb_rating_predict_model.py] and of the
    library calls it makes, as the script configures them (scikit-learn's
    [CountVectorizer], [StandardScaler], [OrdinalEncoder],
    [ColumnTransformer], [Pipeline], [Ridge], [GridSearchCV], NumPy's
    [arange], pandas' [read_csv], [drop], [sort_values], [to_csv], and the
    file-system calls [os.path.join], [Path.mkdir], [joblib.dump]).

    Conventions.
    - Python exceptions are values of [exn]; a call that can raise returns
      a [result].
    - A float64 is a [float]: a rational (kept in lowest terms) or NaN.
      Rounding, overflow and the infinities are left out; no statement
      below depends on them.
    - The Ridge solver and the square root are parameters of the
      development (Section variables): they are numerical routines of the
      library, and functions of their arguments.
    - The process state ([world]) is the file system, the console and the
      module-level bindings of the script. *)

From Stdlib Require Import List String Ascii Bool Arith ZArith QArith Lia.
From Stdlib Require Import Permutation Sorted OrderedTypeEx.
From Stdlib Require Import Lqa.
Import ListNotations.

Local Close Scope Q_scope.
Local Open Scope string_scope.
Local Open Scope nat_scope.
Local Open Scope bool_scope.
Local Open Scope list_scope.

(** ** Python results *)

Inductive exn : Type :=
| ValueError (msg : string)
| KeyError (key : string)
| NameError (name : string)
| AttributeError (msg : string)
| ParserError (path : string)
| FileNotFoundError (path : string)
| FileExistsError (path : string)
| IsADirectoryError (path : string)
| NotADirectoryError (path : string)
| NotFittedError
| SystemExit.

Inductive result (A : Type) : Type :=
| Ok (a : A)
| Raise (e : exn).

Arguments Ok {A} a.
Arguments Raise {A} e.

Definition rbind {A B} (r : result A) (k : A -> result B) : result B :=
  match r with
  | Ok a => k a
  | Raise e => Raise e
  end.

Notation "'try' x <- c1 ; c2" := (rbind c1 (fun x => c2))
  (at level 61, x name, c1 at next level, right associativity).

Definition is_ok {A} (r : result A) : bool :=
  match r with Ok _ => true | Raise _ => false end.

(** [mapM f xs]: run [f] on every element, left to right; the first
    exception ends the loop. *)
Fixpoint mapM {A B} (f : A -> result B) (xs : list A) : result (list B) :=
  match xs with
  | [] => Ok []
  | x :: xs' =>
      try y <- f x;
      try ys <- mapM f xs';
      Ok (y :: ys)
  end.

(** ** Floats *)

Inductive float : Type :=
| NaN
| Fin (q : Q).

Definition isnan (x : float) : bool :=
  match x with NaN => true | Fin _ => false end.

Definition fadd (x y : float) : float :=
  match x, y with
  | Fin a, Fin b => Fin (Qred (a + b))
  | _, _ => NaN
  end.

Definition fsub (x y : float) : float :=
  match x, y with
  | Fin a, Fin b => Fin (Qred (a - b))
  | _, _ => NaN
  end.

Definition fmul (x y : float) : float :=
  match x, y with
  | Fin a, Fin b => Fin (Qred (a * b))
  | _, _ => NaN
  end.

Definition Qis_zero (q : Q) : bool := (Qnum q =? 0)%Z.

(** Division; a zero divisor gives NaN (the infinities are not modelled). *)
Definition fdiv (x y : float) : float :=
  match x, y with
  | Fin a, Fin b => if Qis_zero b then NaN else Fin (Qred (a / b))
  | _, _ => NaN
  end.

Definition fsum (xs : list float) : float := fold_left fadd xs (Fin 0%Q).

Definition of_nat (n : nat) : float := Fin (inject_Z (Z.of_nat n)).
Definition of_Z (z : Z) : float := Fin (inject_Z z).

(** [np.average] / [np.mean] over one axis: NaN as soon as an entry is NaN,
    and NaN for an empty slice. *)
Definition fmean (xs : list float) : float := fdiv (fsum xs) (of_nat (List.length xs)).

(** The order the ranking uses: on numbers the usual one; NaN compares below
    every number (and NaN with itself as equal), as [sort_values] with
    [na_position='last'] and the rank computation place it. *)
Definition fle (x y : float) : bool :=
  match x, y with
  | NaN, _ => true
  | Fin _, NaN => false
  | Fin a, Fin b => Qle_bool a b
  end.

Definition flt (x y : float) : bool := negb (fle y x).

(** ** NumPy: [np.arange(start, stop, step)] on integers, [step > 0] *)

Fixpoint arange_from (start step : Z) (n : nat) : list Z :=
  match n with
  | O => []
  | S n' => start :: arange_from (start + step) step n'
  end.

Definition arange (start stop step : Z) : list Z :=
  arange_from start step (Z.to_nat ((stop - start + step - 1) / step)).

(** ** Sorting, as NumPy's [argsort] on short arrays: a stable insertion
    sort.  [lt y x] says that [y] sorts strictly before [x]. *)

Section Sorting.
Context {A : Type} (lt : A -> A -> bool).

Fixpoint insert_sorted (x : A) (l : list A) : list A :=
  match l with
  | [] => [x]
  | y :: l' => if lt y x then y :: insert_sorted x l' else x :: l
  end.

Definition argsort (l : list A) : list A := fold_right insert_sorted [] l.
End Sorting.

(** ** pandas: the data frame

    A frame is its column labels and its rows; a row gives the cell under
    each label.  [read_csv] has parsed the fields: a [Flt] cell is a number
    or a missing value (NaN), a [Str] cell is text that is not a number. *)

Inductive cell : Type :=
| Str (s : string)
| Flt (x : float).

Record DataFrame : Type := {
  columns : list string;
  rows : list (string -> cell)
}.

Definition has_column (df : DataFrame) (c : string) : bool :=
  existsb (String.eqb c) (columns df).

(** [df[c]] *)
Definition getitem (df : DataFrame) (c : string) : result (list cell) :=
  if has_column df c then Ok (map (fun r => r c) (rows df))
  else Raise (KeyError c).

(** [df.drop(columns=cs)]: every label must be present. *)
Definition drop (df : DataFrame) (cs : list string) : result DataFrame :=
  match filter (fun c => negb (has_column df c)) cs with
  | [] => Ok {| columns := filter (fun c => negb (existsb (String.eqb c) cs)) (columns df);
                rows := rows df |}
  | c :: _ => Raise (KeyError c)
  end.

(** Row selection by position, [df.iloc[idx]] / [_safe_indexing]. *)
Definition take {A} (d : A) (l : list A) (idx : list nat) : list A :=
  map (fun i => nth i l d) idx.

(** ** The script's module-level configuration (lines 33-37) *)

Definition numeric_features : list string := ["n_words"].
Definition text_feature : string := "Text".
Definition ordinal_features : list string := ["sentiment"].
Definition drop_features : list string := ["Id"; "Author"].
Definition target : string := "Rating".

(** ** CountVectorizer: tokens *)

Definition is_word_char (c : ascii) : bool :=
  let n := N_of_ascii c in
  (((48 <=? n) && (n <=? 57)) || ((65 <=? n) && (n <=? 90))
   || (n =? 95) || ((97 <=? n) && (n <=? 122)))%N.

Definition lower_char (c : ascii) : ascii :=
  let n := N_of_ascii c in
  if ((65 <=? n) && (n <=? 90))%N then ascii_of_N (n + 32) else c.

Fixpoint lower (s : string) : string :=
  match s with
  | EmptyString => EmptyString
  | String c s' => String (lower_char c) (lower s')
  end.

(** The default [token_pattern], [\b\w\w+\b]: the maximal runs of word
    characters that are at least two characters long (the text is read as
    ASCII).  [cur] is the run being read, last character first. *)
Definition flush (cur : list ascii) : list string :=
  if 2 <=? List.length cur then [string_of_list_ascii (rev cur)] else [].

Fixpoint tokenize_from (cur : list ascii) (s : string) : list string :=
  match s with
  | EmptyString => flush cur
  | String c s' =>
      if is_word_char c then tokenize_from (c :: cur) s'
      else flush cur ++ tokenize_from [] s'
  end.

Definition tokenize (s : string) : list string := tokenize_from [] s.

Definition in_list (s : string) (l : list string) : bool :=
  existsb (String.eqb s) l.

(** A document must be a string ([CountVectorizer.decode], then
    [doc.lower()]). *)
Definition decode (c : cell) : result string :=
  match c with
  | Str s => Ok s
  | Flt NaN => Raise (ValueError "np.nan is an invalid document, expected byte or unicode string.")
  | Flt (Fin _) => Raise (AttributeError "lower")
  end.

(** The vocabulary is kept in sorted order, without repetition. *)
Fixpoint insert_term (t : string) (v : list string) : list string :=
  match v with
  | [] => [t]
  | u :: v' =>
      if String.eqb t u then v
      else if String.ltb t u then t :: v
      else u :: insert_term t v'
  end.

Definition sorted_terms (toks : list string) : list string :=
  fold_right insert_term [] toks.

Definition count_term (toks : list string) (t : string) : nat :=
  List.length (filter (String.eqb t) toks).

(** [_limit_features] with [max_features]: the [limit] terms of highest
    total count are kept, [(-tfs).argsort()[:limit]], in vocabulary order. *)
Definition limit_features (limit : nat) (vocab : list string) (toks : list string)
  : list string :=
  if List.length vocab <=? limit then vocab
  else
    let by_count := argsort (fun a b => count_term toks b <? count_term toks a) vocab in
    let kept := firstn limit by_count in
    filter (fun t => in_list t kept) vocab.

(** ** OrdinalEncoder *)

Fixpoint index_of (s : string) (l : list string) : option nat :=
  match l with
  | [] => None
  | x :: l' => if String.eqb s x then Some O
               else option_map S (index_of s l')
  end.

Definition encode_ordinal (categories : list string) (phase : string) (c : cell)
  : result nat :=
  match c with
  | Str s =>
      match index_of s categories with
      | Some i => Ok i
      | None => Raise (ValueError ("Found unknown categories in column 0 during " ++ phase)%string)
      end
  | Flt _ => Raise (ValueError ("Found unknown categories in column 0 during " ++ phase)%string)
  end.

(** [OrdinalEncoder(categories=[cats])], [handle_unknown] left at its
    default ['error']: [fit] checks the column against the given list,
    [transform] checks again and gives the positions. *)
Definition ordinal_fit (categories : list string) (col : list cell) : result unit :=
  try _ <- mapM (encode_ordinal categories "fit") col;
  Ok tt.

Definition ordinal_transform (categories : list string) (col : list cell)
  : result (list nat) :=
  mapM (encode_ordinal categories "transform") col.

(** ** Exact ridge regression over the rationals

    The minimiser of [|y - X w - b|^2 + alpha |w|^2], from the normal
    equations on the centred data.  It is the solver of the worked examples
    further down; the statements about the script hold for any solver. *)

Definition Qmean (l : list Q) : Q :=
  Qred (fold_left Qplus l 0%Q / inject_Z (Z.of_nat (List.length l)))%Q.

Fixpoint Qdot (a b : list Q) : Q :=
  match a, b with
  | x :: a', y :: b' => Qred (x * y + Qdot a' b')%Q
  | _, _ => 0%Q
  end.

Fixpoint transpose (width : nat) (m : list (list Q)) : list (list Q) :=
  match width with
  | O => []
  | S width' => map (fun r => hd 0%Q r) m :: transpose width' (map (@tl Q) m)
  end.

(** Gaussian elimination on [A x = b]; a row is the coefficients and the
    right-hand side.  The matrix of the normal equations is positive
    definite for [alpha > 0], so every pivot is non-zero. *)
Fixpoint gauss (fuel : nat) (sys : list (list Q * Q)) : list Q :=
  match fuel, sys with
  | S fuel', (p :: r1, b1) :: others =>
      let reduce := fun (row : list Q * Q) =>
        let f := (hd 0%Q (fst row) / p)%Q in
        (map (fun uv => Qred (fst uv - f * snd uv)%Q) (combine (tl (fst row)) r1),
         Qred (snd row - f * b1)%Q) in
      let xs := gauss fuel' (map reduce others) in
      Qred ((b1 - Qdot r1 xs) / p)%Q :: xs
  | _, _ => []
  end.

Definition exact_ridge (alpha : Z) (X : list (list Q)) (y : list Q) : list Q * Q :=
  let width := List.length (hd [] X) in
  let cols := transpose width X in
  let x_offset := map Qmean cols in
  let y_offset := Qmean y in
  let Xc := map (fun c => map (fun v => (v - Qmean c)%Q) c) cols in
  let yc := map (fun v => (v - y_offset)%Q) y in
  let gram := map (fun ic =>
                     map (fun jc =>
                            Qred (Qdot (snd ic) (snd jc)
                                  + (if fst ic =? fst jc then inject_Z alpha else 0))%Q)
                         (combine (seq 0 width) Xc))
                  (combine (seq 0 width) Xc) in
  let rhs := map (fun c => Qdot c yc) Xc in
  let w := gauss width (combine gram rhs) in
  (w, Qred (y_offset - Qdot x_offset w)%Q).

(** The square root of the worked examples: exact on squares of rationals. *)
Definition rational_sqrt (q : Q) : Q :=
  Qred (Z.sqrt (Qnum q * Zpos (Qden q)) # Qden q).

(** * The script *)

Section Script.

(** scikit-learn's built-in English stop-word list, [stop_words='english']. *)
Variable ENGLISH_STOP_WORDS : list string.

(** The square root on float64 ([np.sqrt]). *)
Variable sqrtQ : Q -> Q.

(** The linear solver behind [Ridge.fit] (default [solver='auto'], no
    randomised step): from the regularization strength, the design matrix
    and the targets to the coefficients and the intercept. *)
Variable ridge_solve : Z -> list (list Q) -> list Q -> list Q * Q.

(** ** CountVectorizer(max_features=.., stop_words='english') *)

Definition analyze (doc : string) : list string :=
  filter (fun t => negb (in_list t ENGLISH_STOP_WORDS)) (tokenize (lower doc)).

Definition count_vectorizer_fit (max_features : nat) (docs : list cell)
  : result (list string) :=
  try strs <- mapM decode docs;
  let toks := flat_map analyze strs in
  match sorted_terms toks with
  | [] => Raise (ValueError "empty vocabulary; perhaps the documents only contain stop words")
  | vocab =>
      match limit_features max_features vocab toks with
      | [] => Raise (ValueError "After pruning, no terms remain. Try a lower min_df or a higher max_df.")
      | kept => Ok kept
      end
  end.

Definition count_vectorizer_transform (vocabulary : list string) (docs : list cell)
  : result (list (list nat)) :=
  try strs <- mapM decode docs;
  Ok (map (fun s => map (count_term (analyze s)) vocabulary) strs).

(** ** StandardScaler() *)

Definition to_float (c : cell) : result float :=
  match c with
  | Flt x => Ok x
  | Str _ => Raise (ValueError "could not convert string to float")
  end.

Definition fsqrt (x : float) : float :=
  match x with
  | NaN => NaN
  | Fin q => Fin (sqrtQ q)
  end.

(** [_handle_zeros_in_scale]: a zero scale is replaced by one. *)
Definition handle_zeros_in_scale (s : float) : float :=
  match s with
  | Fin q => if Qis_zero q then Fin 1%Q else Fin q
  | NaN => NaN
  end.

(** Mean and standard deviation over the entries that are not NaN. *)
Definition scaler_fit (col : list cell) : result (float * float) :=
  try xs <- mapM to_float col;
  let seen := filter (fun x => negb (isnan x)) xs in
  let mean := fmean seen in
  let var := fmean (map (fun x => fmul (fsub x mean) (fsub x mean)) seen) in
  Ok (mean, handle_zeros_in_scale (fsqrt var)).

Definition scaler_transform (mean scale : float) (col : list cell)
  : result (list float) :=
  try xs <- mapM to_float col;
  Ok (map (fun x => fdiv (fsub x mean) scale) xs).

(** ** The preprocessor, lines 46-52

    [ColumnTransformer] with the three transformers of the script and
    [remainder] left at its default ['drop']. *)

Definition max_features : nat := 20 * 1000.
Definition sentiment_categories : list string := ["neg"; "compound"; "neu"; "pos"].

Record PreproState : Type := {
  vocabulary_ : list string;
  mean_ : float;
  scale_ : float
}.

(** Column selection by label. *)
Definition select (X : DataFrame) (c : string) : result (list cell) :=
  if has_column X c then Ok (map (fun r => r c) (rows X))
  else Raise (ValueError "A given column is not a column of the dataframe").

Definition select_all (X : DataFrame) : result (list cell * list cell * list cell) :=
  try text <- select X text_feature;
  try num <- select X (hd "" numeric_features);
  try ord <- select X (hd "" ordinal_features);
  Ok (text, num, ord).

(** [hstack] of the three blocks, one row at a time. *)
Fixpoint hstack (counts : list (list nat)) (num : list float) (ord : list nat)
  : list (list float) :=
  match counts, num, ord with
  | c :: counts', x :: num', o :: ord' =>
      (map of_nat c ++ [x] ++ [of_nat o]) :: hstack counts' num' ord'
  | _, _, _ => []
  end.

Definition preprocessor_transform (st : PreproState) (X : DataFrame)
  : result (list (list float)) :=
  try cols <- select_all X;
  let '(text, num, ord) := cols in
  try counts <- count_vectorizer_transform (vocabulary_ st) text;
  try scaled <- scaler_transform (mean_ st) (scale_ st) num;
  try codes <- ordinal_transform sentiment_categories ord;
  Ok (hstack counts scaled codes).

Definition preprocessor_fit (X : DataFrame) : result PreproState :=
  try cols <- select_all X;
  let '(text, num, ord) := cols in
  try vocab <- count_vectorizer_fit max_features text;
  try ms <- scaler_fit num;
  try _ <- ordinal_fit sentiment_categories ord;
  Ok {| vocabulary_ := vocab; mean_ := fst ms; scale_ := snd ms |}.

Definition preprocessor_fit_transform (X : DataFrame)
  : result (PreproState * list (list float)) :=
  try st <- preprocessor_fit X;
  try Xt <- preprocessor_transform st X;
  Ok (st, Xt).

(** ** Ridge() *)

Definition finite (x : float) : result Q :=
  match x with
  | Fin q => Ok q
  | NaN => Raise (ValueError "Input contains NaN, infinity or a value too large for dtype('float64').")
  end.

Definition check_array (X : list (list float)) : result (list (list Q)) :=
  mapM (mapM finite) X.

Definition check_target (y : list cell) : result (list Q) :=
  mapM (fun c => try x <- to_float c; finite x) y.

Definition ridge_fit (alpha : Z) (X : list (list float)) (y : list cell)
  : result (list Q * Q) :=
  try Xq <- check_array X;
  try yq <- check_target y;
  if List.length Xq =? List.length yq then Ok (ridge_solve alpha Xq yq)
  else Raise (ValueError "Found input variables with inconsistent numbers of samples").

Fixpoint dot (w x : list Q) : Q :=
  match w, x with
  | a :: w', b :: x' => Qred (a * b + dot w' x')
  | _, _ => 0%Q
  end.

Definition ridge_predict (coef : list Q) (intercept : Q) (X : list (list float))
  : result (list Q) :=
  try Xq <- check_array X;
  Ok (map (fun x => Qred (dot coef x + intercept)) Xq).

(** ** The pipeline, lines 53-58

    A pipeline object carries its one tunable parameter and, once fitted,
    what [fit] has learned. *)

Record Fitted : Type := {
  prepro_ : PreproState;
  coef_ : list Q;
  intercept_ : Q
}.

Record Pipeline : Type := {
  ridge__alpha : Z;
  fitted_ : option Fitted
}.

(** [Pipeline(steps=[('prepro', preprocessor), ('ridge', Ridge())])];
    [Ridge()] has [alpha=1.0]. *)
Definition ml_pipe : Pipeline := {| ridge__alpha := 1; fitted_ := None |}.

Definition clone (p : Pipeline) : Pipeline :=
  {| ridge__alpha := ridge__alpha p; fitted_ := None |}.

Definition set_params (p : Pipeline) (alpha : Z) : Pipeline :=
  {| ridge__alpha := alpha; fitted_ := fitted_ p |}.

(** [p.fit(X, y)]: the preprocessor is fitted on [X] and transforms it,
    then the regressor is fitted; every learned attribute is assigned
    anew. *)
Definition pipeline_fit (p : Pipeline) (X : DataFrame) (y : list cell)
  : result Pipeline :=
  try sx <- preprocessor_fit_transform X;
  try ci <- ridge_fit (ridge__alpha p) (snd sx) y;
  Ok {| ridge__alpha := ridge__alpha p;
        fitted_ := Some {| prepro_ := fst sx; coef_ := fst ci; intercept_ := snd ci |} |}.

Definition pipeline_predict (p : Pipeline) (X : DataFrame) : result (list Q) :=
  match fitted_ p with
  | None => Raise NotFittedError
  | Some f =>
      try Xt <- preprocessor_transform (prepro_ f) X;
      ridge_predict (coef_ f) (intercept_ f) Xt
  end.

(** ** The scorer, [scoring='r2'] *)

Definition Qsum (l : list Q) : Q := fold_left (fun a b => Qred (a + b)) l 0%Q.

Definition sum_sq (l : list Q) : Q := Qsum (map (fun d => Qred (d * d)) l).

Fixpoint zip_sub (a b : list Q) : list Q :=
  match a, b with
  | x :: a', y :: b' => Qred (x - y) :: zip_sub a' b'
  | _, _ => []
  end.

Definition r2_score (y_true : list cell) (y_pred : list Q) : result float :=
  try yt <- check_target y_true;
  if negb (List.length yt =? List.length y_pred)
  then Raise (ValueError "Found input variables with inconsistent numbers of samples")
  else if List.length y_pred <? 2 then Ok NaN
  else
    let mean := Qred (Qsum yt / inject_Z (Z.of_nat (List.length yt))) in
    let numerator := sum_sq (zip_sub yt y_pred) in
    let denominator := sum_sq (map (fun v => Qred (v - mean)) yt) in
    if Qis_zero numerator then Ok (Fin 1%Q)
    else if Qis_zero denominator then Ok (Fin 0%Q)
    else Ok (Fin (Qred (1 - numerator / denominator))).

Definition scorer (est : Pipeline) (X : DataFrame) (y : list cell) : result float :=
  try pred <- pipeline_predict est X;
  r2_score y pred.

(** ** KFold(n_splits), the default splitter for a regressor: consecutive
    blocks, no shuffling *)

Definition fold_sizes (n k : nat) : list nat :=
  map (fun i => n / k + (if i <? n mod k then 1 else 0)) (seq 0 k).

Fixpoint test_folds (start : nat) (sizes : list nat) : list (list nat) :=
  match sizes with
  | [] => []
  | s :: sizes' => seq start s :: test_folds (start + s) sizes'
  end.

Definition kfold_split (n_splits n : nat) : result (list (list nat * list nat)) :=
  if n <? n_splits
  then Raise (ValueError "Cannot have number of splits n_splits greater than the number of samples")
  else Ok (map (fun test =>
                  (filter (fun i => negb (existsb (Nat.eqb i) test)) (seq 0 n), test))
               (test_folds 0 (fold_sizes n n_splits))).

Definition nan_row : string -> cell := fun _ => Flt NaN.

Definition iloc (X : DataFrame) (idx : list nat) : DataFrame :=
  {| columns := columns X; rows := take nan_row (rows X) idx |}.

(** ** GridSearchCV, lines 65-71 *)

(** The [error_score] argument: re-raise a fit error, or score the fold
    with the given number. *)
Inductive ErrorScore : Type :=
| error_raise
| error_value (x : float).

(** [_fit_and_score] on one candidate and one split: a fresh clone of the
    estimator gets the candidate's parameter and is fitted on the training
    rows; the result is the pair of the held-out and the training score
    ([return_train_score=True]). *)
Definition fit_and_score (estimator : Pipeline) (error_score : ErrorScore)
           (X : DataFrame) (y : list cell) (alpha : Z)
           (split : list nat * list nat) : result (float * float) :=
  let est := set_params (clone estimator) alpha in
  let X_train := iloc X (fst split) in
  let y_train := take (Flt NaN) y (fst split) in
  let X_test := iloc X (snd split) in
  let y_test := take (Flt NaN) y (snd split) in
  match pipeline_fit est X_train y_train with
  | Raise e =>
      match error_score with
      | error_raise => Raise e
      | error_value s => Ok (s, s)
      end
  | Ok est' =>
      try test_score <- scorer est' X_test y_test;
      try train_score <- scorer est' X_train y_train;
      Ok (test_score, train_score)
  end.

(** One row of [cv_results_]; [index] is the candidate's position in the
    grid, which the frame keeps as its row label.  The timing columns
    ([mean_fit_time], [std_fit_time], [mean_score_time],
    [std_score_time]), which differ from one run to the next, and the two
    standard deviations of the scores are left out: a row here is the
    part of a report row that the data determines, and no statement
    below compares the reports of two runs. *)
Record cv_row : Type := {
  index : nat;
  param_ridge__alpha : Z;
  split_test_score : list float;
  mean_test_score : float;
  rank_test_score : nat;
  split_train_score : list float;
  mean_train_score : float
}.

(** [rankdata(-means, method='min')], NaN ranked after every number. *)
Definition rank_of (means : list float) (m : float) : nat :=
  S (List.length (filter (fun m' => flt m m') means)).

(** [argmin]: the first position of the least element. *)
Fixpoint argmin (l : list nat) : nat :=
  match l with
  | [] => 0
  | x :: l' =>
      match l' with
      | [] => 0
      | _ => let j := argmin l' in
             if x <=? nth j l' 0 then 0 else S j
      end
  end.

Definition evaluate_candidate (estimator : Pipeline) (error_score : ErrorScore)
           (X : DataFrame) (y : list cell) (splits : list (list nat * list nat))
           (alpha : Z) : result (Z * list (float * float)) :=
  try scores <- mapM (fit_and_score estimator error_score X y alpha) splits;
  Ok (alpha, scores).

Definition make_rows (out : list (Z * list (float * float))) : list cv_row :=
  let means := map (fun r => fmean (map fst (snd r))) out in
  map (fun ir =>
         let '(i, (alpha, scores)) := ir in
         {| index := i;
            param_ridge__alpha := alpha;
            split_test_score := map fst scores;
            mean_test_score := fmean (map fst scores);
            rank_test_score := rank_of means (fmean (map fst scores));
            split_train_score := map snd scores;
            mean_train_score := fmean (map snd scores) |})
      (combine (seq 0 (List.length out)) out).

Record GridSearchCV : Type := {
  cv_results_ : list cv_row;
  best_index_ : nat;
  best_score_ : float;
  best_params_ : Z;
  best_estimator_ : Pipeline
}.

(** [GridSearchCV(estimator, param_grid, cv, error_score, scoring='r2',
    refit=True).fit(X, y)]: every candidate of the grid, in grid order, on
    every split; then the ranking, the best candidate and its refit on
    all of [X].  The candidates are independent of each other, so the
    worker pool of [n_jobs=-1] changes no result. *)
Definition grid_search_fit (estimator : Pipeline) (param_grid : list Z)
           (cv : nat) (error_score : ErrorScore)
           (X : DataFrame) (y : list cell) : result GridSearchCV :=
  try splits <- kfold_split cv (List.length (rows X));
  try out <- mapM (evaluate_candidate estimator error_score X y splits) param_grid;
  let results := make_rows out in
  match results with
  | [] => Raise (ValueError "attempt to get argmin of an empty sequence")
  | r0 :: _ =>
      let best_index := argmin (map rank_test_score results) in
      let best := nth best_index results r0 in
      let best_params := param_ridge__alpha best in
      try best_estimator <-
        pipeline_fit (clone (set_params (clone estimator) best_params)) X y;
      Ok {| cv_results_ := results;
            best_index_ := best_index;
            best_score_ := mean_test_score best;
            best_params_ := best_params;
            best_estimator_ := best_estimator |}
  end.

(** ** pandas: [sort_values(by='mean_test_score', ascending=False)]

    As [nargsort] does it: the rows whose key is not NaN are reversed,
    sorted ascending, and reversed again; the NaN rows come last. *)
Definition sort_values (key : cv_row -> float) (l : list cv_row) : list cv_row :=
  let non_nans := filter (fun r => negb (isnan (key r))) l in
  let nans := filter (fun r => isnan (key r)) l in
  rev (argsort (fun a b => flt (key a) (key b)) (rev non_nans)) ++ nans.

(** ** The process state *)

(** A path names a node: whether it starts at the root, and its
    components ([.] and empty components dropped; [..] and links are not
    resolved). *)
Definition node : Type := bool * list string.

Fixpoint split_slash (cur : list ascii) (s : string) : list string :=
  match s with
  | EmptyString => [string_of_list_ascii (rev cur)]
  | String c s' =>
      if Ascii.eqb c "/" then string_of_list_ascii (rev cur) :: split_slash [] s'
      else split_slash (c :: cur) s'
  end.

(** The components of a path that [parse_path] keeps. *)
Definition keep_component (c : string) : bool :=
  negb (String.eqb c "") && negb (String.eqb c ".").

Definition parse_path (s : string) : node :=
  (String.prefix "/" s, filter keep_component (split_slash [] s)).

Fixpoint list_eqb (a b : list string) : bool :=
  match a, b with
  | [], [] => true
  | x :: a', y :: b' => String.eqb x y && list_eqb a' b'
  | _, _ => false
  end.

Definition node_eqb (a b : node) : bool :=
  Bool.eqb (fst a) (fst b) && list_eqb (snd a) (snd b).

Definition parent (n : node) : node := (fst n, removelast (snd n)).

Fixpoint last_char (s : string) : option ascii :=
  match s with
  | EmptyString => None
  | String c EmptyString => Some c
  | String _ s' => last_char s'
  end.

(** [os.path.join(a, b)] *)
Definition os_path_join (a b : string) : string :=
  if String.prefix "/" b then b
  else match last_char a with
       | None => b
       | Some c => if Ascii.eqb c "/" then (a ++ b)%string
                   else (a ++ "/" ++ b)%string
       end.

Inductive content : Type :=
| Csv (df : DataFrame)
| Report (table : list cv_row)
| Pickle (model : Pipeline)
| Bytes (s : string).

Inductive console : Type :=
| Echo (s : string)
| EchoScore (s : string) (x : float).

(** [arguments] is the module-level name that the entry point binds to the
    dictionary of [docopt]; it is unbound until then. *)
Record world : Type := {
  dirs : list node;
  files : list (node * content);
  stdout : list console;
  arguments : option (list (string * string))
}.

Definition is_dir (w : world) (n : node) : bool :=
  match snd n with
  | [] => true
  | _ => existsb (node_eqb n) (dirs w)
  end.

Definition lookup_file (w : world) (n : node) : option content :=
  option_map snd (find (fun f => node_eqb n (fst f)) (files w)).

Definition is_file (w : world) (n : node) : bool :=
  match lookup_file w n with Some _ => true | None => false end.

(** Statements of the script: they change the world and may raise. *)
Definition M (A : Type) : Type := world -> world * result A.

Definition ret {A} (a : A) : M A := fun w => (w, Ok a).

Definition bind {A B} (m : M A) (k : A -> M B) : M B :=
  fun w => match m w with
           | (w', Ok a) => k a w'
           | (w', Raise e) => (w', Raise e)
           end.

Definition lift {A} (r : result A) : M A := fun w => (w, r).

Notation "'do' x <- c1 ; c2" := (bind c1 (fun x => c2))
  (at level 61, x name, c1 at next level, right associativity).

Definition print (s : string) : M unit :=
  fun w => ({| dirs := dirs w; files := files w;
               stdout := stdout w ++ [Echo s];
               arguments := arguments w |}, Ok tt).

Definition print_score (s : string) (x : float) : M unit :=
  fun w => ({| dirs := dirs w; files := files w;
               stdout := stdout w ++ [EchoScore s x];
               arguments := arguments w |}, Ok tt).

(** The files after [n] is created or replaced with content [c]. *)
Definition put_file (n : node) (c : content) (fs : list (node * content))
  : list (node * content) :=
  (n, c) :: filter (fun f => negb (node_eqb n (fst f))) fs.

(** Opening [path] for writing and writing [c]. *)
Definition write_file (path : string) (c : content) : M unit :=
  fun w =>
    let n := parse_path path in
    if is_dir w n then (w, Raise (IsADirectoryError path))
    else if is_dir w (parent n) then
      ({| dirs := dirs w;
          files := put_file n c (files w);
          stdout := stdout w;
          arguments := arguments w |}, Ok tt)
    else if is_file w (parent n) then (w, Raise (NotADirectoryError path))
    else (w, Raise (FileNotFoundError path)).

(** [pd.read_csv(path)] *)
Definition read_csv (path : string) : M DataFrame :=
  fun w =>
    let n := parse_path path in
    if is_dir w n then (w, Raise (IsADirectoryError path))
    else match lookup_file w n with
         | Some (Csv df) => (w, Ok df)
         | Some _ => (w, Raise (ParserError path))
         | None => (w, Raise (FileNotFoundError path))
         end.

Definition add_dir (n : node) (w : world) : world :=
  {| dirs := n :: dirs w; files := files w;
     stdout := stdout w; arguments := arguments w |}.

(** [Path(path).mkdir(parents=True, exist_ok=True)], on the components of
    the path, last one first: [os.mkdir] is tried; a directory that is
    there is accepted, a missing parent is made first. *)
Fixpoint mkdir_parents (path : string) (abs : bool) (rcomps : list string)
         (w : world) : world * result unit :=
  let n := (abs, rev rcomps) in
  if is_dir w n then (w, Ok tt)
  else if is_file w n then (w, Raise (FileExistsError path))
  else match rcomps with
       | [] => (w, Ok tt)
       | _ :: rparent =>
           let p := (abs, rev rparent) in
           if is_dir w p then (add_dir n w, Ok tt)
           else if is_file w p then (w, Raise (NotADirectoryError path))
           else match mkdir_parents path abs rparent w with
                | (w', Ok _) => (add_dir n w', Ok tt)
                | (w', Raise e) => (w', Raise e)
                end
       end.

Definition mkdir (path : string) : M unit :=
  fun w => mkdir_parents path (fst (parse_path path)) (rev (snd (parse_path path))) w.

(** Reading the global name [arguments] and subscripting it. *)
Definition global_arguments : M (list (string * string)) :=
  fun w => match arguments w with
           | Some d => (w, Ok d)
           | None => (w, Raise (NameError "arguments"))
           end.

Definition dict_getitem (d : list (string * string)) (k : string) : result string :=
  match find (fun kv => String.eqb k (fst kv)) d with
  | Some kv => Ok (snd kv)
  | None => Raise (KeyError k)
  end.

(** ** [main], lines 40-86 *)

Definition report_name : string := "hyper_param_search_result.csv".
Definition model_name : string := "model.pkl".

Definition main (train out : string) : M unit :=
  (* Load data set *)
  do train_df <- read_csv train;
  do X_train <- lift (drop train_df ([target] ++ drop_features));
  do y_train <- lift (getitem train_df target);
  (* Tune hyper-parameters *)
  do _ <- print "Searching for hyper-parameters";
  let param_grid := arange 500 1000 50 in
  do hyper_parameters_search <-
    lift (grid_search_fit ml_pipe param_grid 5 (error_value NaN) X_train y_train);
  do _ <- print_score "R2 score for best model: " (best_score_ hyper_parameters_search);
  (* Write hyper-parameter search result to csv *)
  let hyper_parameters_search_result :=
    sort_values mean_test_score (cv_results_ hyper_parameters_search) in
  do _ <- write_file (os_path_join out report_name)
                     (Report hyper_parameters_search_result);
  (* Fit final model *)
  let final_model := best_estimator_ hyper_parameters_search in
  do final_model <- lift (pipeline_fit final_model X_train y_train);
  (* Save pipeline *)
  do args <- global_arguments;
  do dir <- lift (dict_getitem args "<out>");
  do _ <- print ("Writing model to directory: " ++ dir)%string;
  do _ <- mkdir out;
  write_file (os_path_join out model_name) (Pickle final_model).

(** ** The entry point, lines 89-92: [docopt] on two positional
    arguments, then [main].  Anything else on the command line (the help
    flag, an unknown option, another number of arguments) ends the process
    with the usage text. *)
Definition is_option (arg : string) : bool :=
  String.prefix "-" arg && negb (String.eqb arg "-").

Definition docopt (argv : list string) : option (list (string * string)) :=
  match argv with
  | [train; out] =>
      if is_option train || is_option out then None
      else Some [("--help", "False"); ("-h", "False"); ("<out>", out); ("<train>", train)]
  | _ => None
  end.

Definition set_arguments (d : list (string * string)) : M unit :=
  fun w => ({| dirs := dirs w; files := files w; stdout := stdout w;
               arguments := Some d |}, Ok tt).

Definition entry_point (argv : list string) : M unit :=
  match docopt argv with
  | None => lift (Raise SystemExit)
  | Some d =>
      do _ <- set_arguments d;
      do train <- lift (dict_getitem d "<train>");
      do _ <- print ("Constructing model from train data " ++ train)%string;
      do out <- lift (dict_getitem d "<out>");
      main train out
  end.

(** ** Worked data

    A small review table with the six columns of the input file, and
    worlds that hold it as [train.csv]. *)

Definition review (id : Z) (author text : string) (n_words : Z)
           (sentiment : string) (rating : Z) : string -> cell :=
  fun c =>
    if String.eqb c "Id" then Flt (of_Z id)
    else if String.eqb c "Author" then Str author
    else if String.eqb c "Text" then Str text
    else if String.eqb c "n_words" then Flt (of_Z n_words)
    else if String.eqb c "sentiment" then Str sentiment
    else if String.eqb c "Rating" then Flt (of_Z rating)
    else Flt NaN.

Definition imdb_columns : list string :=
  ["Id"; "Author"; "Text"; "n_words"; "sentiment"; "Rating"].

Definition reviews : DataFrame :=
  {| columns := imdb_columns;
     rows := [ review 1 "ann" "good" 1 "pos" 9;
               review 2 "bob" "bad and bad and bad" 5 "neg" 2;
               review 3 "cat" "good" 1 "pos" 8;
               review 4 "dan" "it is good but bad" 5 "neu" 5;
               review 5 "eve" "bad" 1 "neg" 3;
               review 6 "fay" "this was good good good" 5 "compound" 7;
               review 7 "gus" "bad" 1 "neg" 1;
               review 8 "hal" "good and it is good" 5 "pos" 10;
               review 9 "ian" "good" 1 "neu" 6;
               review 10 "joy" "bad but it was good" 5 "compound" 5 ] |}.

(** A part of the stop-word list, enough for the reviews above. *)
Definition stop_words_excerpt : list string :=
  ["the"; "is"; "it"; "and"; "was"; "with"; "but"; "this"; "of"; "to"].

Definition cwd_file (name : string) : node := (false, [name]).

(** The table is in the working directory and [out/] exists; the script
    was started from the command line. *)
Definition world_cli : world :=
  {| dirs := [(false, ["out"])];
     files := [(cwd_file "train.csv", Csv reviews)];
     stdout := [];
     arguments := Some [("--help", "False"); ("-h", "False");
                        ("<out>", "out"); ("<train>", "train.csv")] |}.

(** The same files, [main] called from other code: [arguments] is not
    bound. *)
Definition world_import : world :=
  {| dirs := [(false, ["out"])];
     files := [(cwd_file "train.csv", Csv reviews)];
     stdout := [];
     arguments := None |}.

(** No output directory yet. *)
Definition world_fresh : world :=
  {| dirs := [];
     files := [(cwd_file "train.csv", Csv reviews)];
     stdout := [];
     arguments := None |}.

(** Started from the command line, [out/] exists, but [out/model.pkl] is
    a directory. *)
Definition world_blocked : world :=
  {| dirs := [(false, ["out"]); (false, ["out"; "model.pkl"])];
     files := [(cwd_file "train.csv", Csv reviews)];
     stdout := [];
     arguments := Some [("--help", "False"); ("-h", "False");
                        ("<out>", "out"); ("<train>", "train.csv")] |}.

(** A table in which only the first two reviews have a word that is not
    a stop word, and a world that holds it. *)
Definition terse_reviews : DataFrame :=
  {| columns := imdb_columns;
     rows := [ review 1 "ann" "great movie" 2 "pos" 9;
               review 2 "bob" "boring plot" 2 "neg" 2;
               review 3 "cat" "it was" 2 "pos" 8;
               review 4 "dan" "this is it" 3 "neu" 5;
               review 5 "eve" "it is" 2 "neg" 3;
               review 6 "fay" "this was it" 3 "compound" 7;
               review 7 "gus" "was it" 2 "neg" 1;
               review 8 "hal" "it was this" 3 "pos" 10;
               review 9 "ian" "is it" 2 "neu" 6;
               review 10 "joy" "this is" 2 "compound" 5 ] |}.

Definition world_terse : world :=
  {| dirs := [(false, ["out"])];
     files := [(cwd_file "train.csv", Csv terse_reviews)];
     stdout := [];
     arguments := Some [("--help", "False"); ("-h", "False");
                        ("<out>", "out"); ("<train>", "train.csv")] |}.

(** ** Vocabulary of the statements *)

(** [descending key l]: the keys never increase along [l], NaN keys
    last. *)
Definition descending {A} (key : A -> float) (l : list A) : Prop :=
  StronglySorted (fun a b => fle (key b) (key a) = true) l.

(** The candidate that [argmin] over the ranks selects, from the mean
    held-out scores in grid order. *)
Definition best_of (means : list float) : nat :=
  argmin (map (rank_of means) means).

(** The mean held-out score of one candidate's fold results. *)
Definition mean_test (r : Z * list (float * float)) : float :=
  fmean (map fst (snd r)).

(** The script's call of the search, line 65-71. *)
Definition search (X : DataFrame) (y : list cell) : result GridSearchCV :=
  grid_search_fit ml_pipe (arange 500 1000 50) 5 (error_value NaN) X y.

(** The files the script writes, as nodes. *)
Definition report_node (out : string) : node :=
  parse_path (os_path_join out report_name).
Definition model_node (out : string) : node :=
  parse_path (os_path_join out model_name).

(** Lines 42-43: the table, without the target and the dropped columns,
    and the target column. *)
Definition loaded (train : string) (w : world) : result (DataFrame * list cell) :=
  try train_df <- snd (read_csv train w);
  try X_train <- drop train_df ([target] ++ drop_features);
  try y_train <- getitem train_df target;
  Ok (X_train, y_train).

(** The world after the first and after the second message of [main]. *)
Definition after_search_msg (w : world) : world :=
  fst (print "Searching for hyper-parameters" w).

Definition after_score_msg (w : world) (g : GridSearchCV) : world :=
  fst (print_score "R2 score for best model: " (best_score_ g) (after_search_msg w)).

(** Line 75-77: the sorted table, written as the report. *)
Definition report_of (g : GridSearchCV) : list cv_row :=
  sort_values mean_test_score (cv_results_ g).

Definition write_report (out : string) (g : GridSearchCV) : M unit :=
  write_file (os_path_join out report_name) (Report (report_of g)).

(** The ways [main] can end: where it stops, in which world, with which
    result. *)
Inductive main_exit (train out : string) (w : world) : world -> result unit -> Prop :=
| exit_load e :
    loaded train w = Raise e ->
    main_exit train out w w (Raise e)
| exit_search X y e :
    loaded train w = Ok (X, y) ->
    search X y = Raise e ->
    main_exit train out w (after_search_msg w) (Raise e)
| exit_report X y g w' e :
    loaded train w = Ok (X, y) ->
    search X y = Ok g ->
    write_report out g (after_score_msg w g) = (w', Raise e) ->
    main_exit train out w w' (Raise e)
| exit_final_fit X y g w1 e :
    loaded train w = Ok (X, y) ->
    search X y = Ok g ->
    write_report out g (after_score_msg w g) = (w1, Ok tt) ->
    pipeline_fit (best_estimator_ g) X y = Raise e ->
    main_exit train out w w1 (Raise e)
| exit_arguments X y g w1 final_model e :
    loaded train w = Ok (X, y) ->
    search X y = Ok g ->
    write_report out g (after_score_msg w g) = (w1, Ok tt) ->
    pipeline_fit (best_estimator_ g) X y = Ok final_model ->
    match arguments w1 with
    | None => e = NameError "arguments"
    | Some d => dict_getitem d "<out>" = Raise e
    end ->
    main_exit train out w w1 (Raise e)
| exit_mkdir X y g w1 final_model d dir w2 e :
    loaded train w = Ok (X, y) ->
    search X y = Ok g ->
    write_report out g (after_score_msg w g) = (w1, Ok tt) ->
    pipeline_fit (best_estimator_ g) X y = Ok final_model ->
    arguments w1 = Some d ->
    dict_getitem d "<out>" = Ok dir ->
    mkdir out (fst (print ("Writing model to directory: " ++ dir)%string w1))
      = (w2, Raise e) ->
    main_exit train out w w2 (Raise e)
| exit_dump X y g w1 final_model d dir w2 w' r :
    loaded train w = Ok (X, y) ->
    search X y = Ok g ->
    write_report out g (after_score_msg w g) = (w1, Ok tt) ->
    pipeline_fit (best_estimator_ g) X y = Ok final_model ->
    arguments w1 = Some d ->
    dict_getitem d "<out>" = Ok dir ->
    mkdir out (fst (print ("Writing model to directory: " ++ dir)%string w1))
      = (w2, Ok tt) ->
    write_file (os_path_join out model_name) (Pickle final_model) w2 = (w', r) ->
    main_exit train out w w' r.

(** All-or-nothing artifact writing: a run ends with both artifacts in
    place, or it fails with the files as they were. *)
Definition all_or_nothing (out : string) (w w' : world) (r : result unit) : Prop :=
  (r = Ok tt /\ is_file w' (report_node out) = true
   /\ is_file w' (model_node out) = true)
  \/ (r <> Ok tt /\ files w' = files w).

(** The grid of line 62-64. *)
Definition param_grid : list Z := arange 500 1000 50.

(** A sentiment cell whose value is one of the declared labels. *)
Definition declared (c : cell) : bool :=
  match c with
  | Str s => in_list s sentiment_categories
  | Flt _ => false
  end.

(** The position of a label in the order [neg < compound < neu < pos],
    written out. *)
Definition position (c : cell) : nat :=
  match c with
  | Str s =>
      if String.eqb s "neg" then 0
      else if String.eqb s "compound" then 1
      else if String.eqb s "neu" then 2
      else 3
  | Flt _ => 0
  end.

(** The encoder's error for a value outside the declared labels. *)
Definition unknown_category_error (e : exn) : bool :=
  match e with
  | ValueError msg => String.prefix "Found unknown categories" msg
  | _ => false
  end.

(** The cells of a row that the preprocessor reads. *)
Definition modelled_cells (r : string -> cell) : cell * cell * cell :=
  (r "Text", r "n_words", r "sentiment").

(** The training frame and the targets that [main] makes of a table. *)
Definition features_of (df : DataFrame) : DataFrame :=
  {| columns := ["Text"; "n_words"; "sentiment"]; rows := rows df |}.

Definition targets_of (df : DataFrame) : list cell :=
  map (fun r => r target) (rows df).

(** Fold errors are fatal: when fitting some candidate on the training
    part of some fold raises, the search fails. *)
Definition fold_errors_fatal (X : DataFrame) (y : list cell) : Prop :=
  forall splits i k e,
    kfold_split 5 (List.length (rows X)) = Ok splits ->
    i < 10 -> k < 5 ->
    pipeline_fit (set_params (clone ml_pipe) (nth i param_grid 0%Z))
                 (iloc X (fst (nth k splits ([], []))))
                 (take (Flt NaN) y (fst (nth k splits ([], [])))) = Raise e ->
    is_ok (search X y) = false.

(** ** Vocabulary of the further properties *)

(** A row the pipeline accepts: a string under [Text], a number under
    [n_words] and one of the declared labels under [sentiment]; and a
    target the regressor accepts: a number. *)
Definition is_text (c : cell) : bool :=
  match c with Str _ => true | Flt _ => false end.

Definition is_number (c : cell) : bool :=
  match c with Flt (Fin _) => true | _ => false end.

Definition valid_row (r : string -> cell) : bool :=
  is_text (r "Text") && is_number (r "n_words") && declared (r "sentiment").

(** The three columns the preprocessor selects. *)
Definition feature_columns (X : DataFrame) : bool :=
  has_column X "Text" && has_column X "n_words" && has_column X "sentiment".

(** A row whose text has a token that is not a stop word. *)
Definition has_term (r : string -> cell) : bool :=
  match r "Text" with
  | Str s => match analyze s with [] => false | _ :: _ => true end
  | Flt _ => false
  end.





(** More worked data: the table without its [Author] column, its first
    four rows only, and with a label outside the declared ones. *)
Definition anonymous_reviews : DataFrame :=
  {| columns := ["Id"; "Text"; "n_words"; "sentiment"; "Rating"];
     rows := rows reviews |}.

Definition few_reviews : DataFrame :=
  {| columns := imdb_columns; rows := firstn 4 (rows reviews) |}.

Definition mixed_reviews : DataFrame :=
  {| columns := imdb_columns;
     rows := review 0 "zoe" "good and bad" 3 "mixed" 5 :: rows reviews |}.

Definition world_with (df : DataFrame) : world :=
  {| dirs := [(false, ["out"])];
     files := [(cwd_file "train.csv", Csv df)];
     stdout := [];
     arguments := Some [("--help", "False"); ("-h", "False");
                        ("<out>", "out"); ("<train>", "train.csv")] |}.

(** The world before the script starts: nothing printed, nothing bound. *)
Definition world_shell : world :=
  {| dirs := [(false, ["out"])];
     files := [(cwd_file "train.csv", Csv reviews)];
     stdout := [];
     arguments := None |}.

(** * Properties *)

(** ** Results and loops *)

Lemma mapM_length {A B} (f : A -> result B) (xs : list A) (ys : list B) :
  mapM f xs = Ok ys -> List.length ys = List.length xs.
Proof.
  revert ys; induction xs as [|x xs IH]; simpl; intros ys H.
  - now inversion H.
  - destruct (f x) as [y|e]; simpl in H; try discriminate.
    destruct (mapM f xs) as [ys'|e]; simpl in H; try discriminate.
    inversion H; subst; simpl. now rewrite (IH ys').
Qed.

Lemma mapM_nth {A B} (f : A -> result B) (xs : list A) (ys : list B) dx dy i :
  mapM f xs = Ok ys -> i < List.length xs -> f (nth i xs dx) = Ok (nth i ys dy).
Proof.
  revert ys i; induction xs as [|x xs IH]; simpl; intros ys i H Hi; [lia|].
  destruct (f x) as [y|e] eqn:Ex; simpl in H; try discriminate.
  destruct (mapM f xs) as [ys'|e]; simpl in H; try discriminate.
  inversion H; subst. destruct i as [|i]; simpl; auto.
  apply IH; auto; lia.
Qed.

Lemma mapM_map {A B} (f : A -> result B) (g : A -> B) (xs : list A) :
  (forall x, In x xs -> f x = Ok (g x)) -> mapM f xs = Ok (map g xs).
Proof.
  induction xs as [|x xs IH]; simpl; intros H; auto.
  rewrite (H x) by auto; simpl. rewrite IH by auto. reflexivity.
Qed.

Lemma mapM_ext {A B} (f g : A -> result B) (xs : list A) :
  (forall x, In x xs -> f x = g x) -> mapM f xs = mapM g xs.
Proof.
  induction xs as [|x xs IH]; simpl; intros H; auto.
  rewrite (H x) by auto. rewrite IH by auto. reflexivity.
Qed.

(** ** The order on scores *)

Lemma fle_refl x : fle x x = true.
Proof. destruct x; simpl; auto. apply Qle_bool_iff, Qle_refl. Qed.

Lemma fle_total x y : fle x y = true \/ fle y x = true.
Proof.
  destruct x as [|a], y as [|b]; simpl; auto.
  destruct (Qlt_le_dec a b) as [H|H].
  - left. apply Qle_bool_iff, Qlt_le_weak, H.
  - right. apply Qle_bool_iff, H.
Qed.

Lemma fle_trans x y z : fle x y = true -> fle y z = true -> fle x z = true.
Proof.
  destruct x as [|a], y as [|b], z as [|c]; simpl; auto; try discriminate.
  rewrite !Qle_bool_iff. apply Qle_trans.
Qed.

Lemma flt_fle x y : flt x y = true -> fle x y = true.
Proof.
  unfold flt. intros H. destruct (fle_total x y) as [T|T]; auto.
  rewrite T in H. discriminate.
Qed.

Lemma flt_false_iff x y : flt x y = false <-> fle y x = true.
Proof. unfold flt. destruct (fle y x); simpl; intuition congruence. Qed.

(** ** Insertion sort *)

Section SortingFacts.
Context {A : Type} (lt : A -> A -> bool).
Hypothesis lt_asym : forall a b, lt a b = true -> lt b a = false.
Hypothesis lt_neg_trans :
  forall a b c, lt b a = false -> lt c b = false -> lt c a = false.

(** [a] may stand before [b]. *)
Let before (a b : A) : Prop := lt b a = false.

Lemma insert_sorted_perm x l : Permutation (x :: l) (insert_sorted lt x l).
Proof.
  induction l as [|y l IH]; simpl; auto.
  destruct (lt y x); auto.
  eapply perm_trans; [apply perm_swap|]. now constructor.
Qed.

Lemma argsort_perm l : Permutation l (argsort lt l).
Proof.
  induction l as [|x l IH]; simpl; auto.
  eapply perm_trans; [|apply insert_sorted_perm]. now constructor.
Qed.

Lemma insert_sorted_hd x y l :
  before y x -> HdRel before y l -> HdRel before y (insert_sorted lt x l).
Proof.
  intros Hx Hl. destruct l as [|z l]; simpl.
  - now constructor.
  - destruct (lt z x); constructor; auto. now inversion Hl.
Qed.

Lemma insert_sorted_sorted x l :
  Sorted before l -> Sorted before (insert_sorted lt x l).
Proof.
  induction l as [|y l IH]; simpl; intros H.
  - repeat constructor.
  - inversion H as [|? ? Hs Hh]; subst.
    destruct (lt y x) eqn:E.
    + constructor; auto. apply insert_sorted_hd; auto.
      now apply lt_asym.
    + constructor; [exact H|]. constructor. exact E.
Qed.

Lemma argsort_sorted l : StronglySorted before (argsort lt l).
Proof.
  apply Sorted_StronglySorted.
  - intros a b c Hab Hbc. unfold before in *. eauto.
  - induction l; simpl; [constructor|]. now apply insert_sorted_sorted.
Qed.
End SortingFacts.

Lemma StronglySorted_app {A} (R : A -> A -> Prop) l1 l2 :
  StronglySorted R l1 -> StronglySorted R l2 ->
  (forall a b, In a l1 -> In b l2 -> R a b) ->
  StronglySorted R (l1 ++ l2).
Proof.
  induction l1 as [|x l1 IH]; simpl; intros H1 H2 H; auto.
  inversion H1; subst. constructor.
  - apply IH; auto.
  - apply Forall_app; split; auto.
    apply Forall_forall; intros b Hb. apply H; auto.
Qed.

Lemma StronglySorted_rev {A} (R : A -> A -> Prop) l :
  StronglySorted R l -> StronglySorted (fun a b => R b a) (rev l).
Proof.
  induction 1 as [|x l Hs IH Hf]; simpl; [constructor|].
  apply StronglySorted_app; auto.
  - repeat constructor.
  - intros a b Ha [Hb|[]]; subst. rewrite Forall_forall in Hf.
    apply Hf. now apply in_rev.
Qed.

Lemma filter_partition_perm {A} (f : A -> bool) l :
  Permutation l (filter (fun a => negb (f a)) l ++ filter f l).
Proof.
  induction l as [|x l IH]; simpl; auto.
  destruct (f x); simpl.
  - now apply Permutation_cons_app.
  - now constructor.
Qed.

Lemma sort_values_perm key l : Permutation l (sort_values key l).
Proof.
  unfold sort_values.
  eapply perm_trans; [apply (filter_partition_perm (fun r => isnan (key r)))|].
  apply Permutation_app_tail.
  eapply perm_trans; [|apply Permutation_rev].
  eapply perm_trans; [apply Permutation_rev|]. apply argsort_perm.
Qed.

Lemma sort_values_descending key l : descending key (sort_values key l).
Proof.
  unfold sort_values, descending.
  apply StronglySorted_app.
  - apply (StronglySorted_rev (fun a b => fle (key a) (key b) = true)).
    eapply StronglySorted_ind with (P := fun l => StronglySorted _ l).
    1: constructor. 2: apply (argsort_sorted (fun a b => flt (key a) (key b))).
    + intros a l0 _ IH Hf. constructor; auto.
      eapply Forall_impl; [|exact Hf]. simpl. intros b Hb.
      now apply flt_false_iff.
    + intros a b H. apply flt_false_iff. now apply flt_fle.
    + intros a b c H1 H2. apply flt_false_iff in H1, H2. apply flt_false_iff.
      eapply fle_trans; eauto.
  - induction l as [|x l IH]; simpl; [constructor|].
    destruct (isnan (key x)) eqn:E; auto. constructor; auto.
    apply Forall_forall. intros b Hb. apply filter_In in Hb as [_ Hb].
    destruct (key b); simpl in *; auto; discriminate.
  - intros a b _ Hb. apply filter_In in Hb as [_ Hb].
    destruct (key b); simpl in *; auto; discriminate.
Qed.

(** ** Ranks and the best candidate *)

Lemma argmin_spec l :
  l <> [] ->
  argmin l < List.length l
  /\ (forall j, j < List.length l -> nth (argmin l) l 0 <= nth j l 0)
  /\ (forall j, j < argmin l -> nth (argmin l) l 0 < nth j l 0).
Proof.
  induction l as [|x l IH]; [congruence|]. intros _.
  destruct l as [|x' l'].
  - simpl. repeat split; intros; try lia.
    destruct j as [|[|j]]; simpl; lia.
  - destruct IH as (Hlt & Hmin & Hfirst); [congruence|].
    remember (x' :: l') as l eqn:El.
    assert (E : argmin (x :: l) =
                if x <=? nth (argmin l) l 0 then 0 else S (argmin l)).
    { subst l. reflexivity. }
    rewrite E. destruct (x <=? nth (argmin l) l 0) eqn:C.
    + apply Nat.leb_le in C. simpl. repeat split; intros; try lia.
      destruct j as [|j]; [lia|]. specialize (Hmin j). lia.
    + apply Nat.leb_gt in C. simpl. repeat split; intros; try lia.
      * destruct j as [|j]; [lia|]. specialize (Hmin j). lia.
      * destruct j as [|j]; [lia|]. specialize (Hfirst j). lia.
Qed.

Lemma filter_length_le {A} (f g : A -> bool) l :
  (forall x, In x l -> f x = true -> g x = true) ->
  List.length (filter f l) <= List.length (filter g l).
Proof.
  induction l as [|x l IH]; simpl; intros H; auto.
  assert (IH' := IH (fun z Hz => H z (or_intror Hz))).
  destruct (f x) eqn:Ef.
  - rewrite (H x (or_introl eq_refl) Ef). simpl. lia.
  - destruct (g x); simpl; lia.
Qed.

Lemma filter_length_lt {A} (f g : A -> bool) l x0 :
  (forall x, In x l -> f x = true -> g x = true) ->
  In x0 l -> f x0 = false -> g x0 = true ->
  List.length (filter f l) < List.length (filter g l).
Proof.
  induction l as [|x l IH]; simpl; intros H Hin Hf Hg; [tauto|].
  assert (Hle := filter_length_le f g l (fun z Hz => H z (or_intror Hz))).
  destruct Hin as [->|Hin].
  - rewrite Hf, Hg. simpl. lia.
  - assert (IH' := IH (fun z Hz => H z (or_intror Hz)) Hin Hf Hg).
    destruct (f x) eqn:Ef.
    + rewrite (H x (or_introl eq_refl) Ef). simpl. lia.
    + destruct (g x); simpl; lia.
Qed.

Lemma rank_of_le means a b :
  fle a b = true -> rank_of means b <= rank_of means a.
Proof.
  intros Hab. unfold rank_of. apply le_n_S, filter_length_le.
  intros m _. unfold flt. destruct (fle m a) eqn:E; auto.
  rewrite (fle_trans m a b E Hab). auto.
Qed.

Lemma rank_of_lt means a b :
  In b means -> flt a b = true -> rank_of means b < rank_of means a.
Proof.
  intros Hin Hab. unfold rank_of. apply -> Nat.succ_lt_mono.
  apply filter_length_lt with (x0 := b); auto.
  - intros m _. unfold flt. destruct (fle m a) eqn:E; auto.
    rewrite (fle_trans m a b E (flt_fle a b Hab)). auto.
  - unfold flt. now rewrite fle_refl.
Qed.

Lemma best_of_spec means :
  means <> [] ->
  best_of means < List.length means
  /\ (forall j, j < List.length means ->
        fle (nth j means NaN) (nth (best_of means) means NaN) = true)
  /\ (forall j, j < best_of means ->
        flt (nth j means NaN) (nth (best_of means) means NaN) = true).
Proof.
  intros Hne. unfold best_of.
  destruct (argmin_spec (map (rank_of means) means)) as (Hlt & Hmin & Hfirst).
  { destruct means; simpl; congruence. }
  rewrite length_map in *.
  set (b := argmin (map (rank_of means) means)) in *.
  assert (Hnth : forall j, j < List.length means ->
            nth j (map (rank_of means) means) 0 = rank_of means (nth j means NaN)).
  { intros j Hj. rewrite (nth_indep _ 0 (rank_of means NaN)) by now rewrite length_map.
    apply map_nth. }
  repeat split; auto.
  - intros j Hj. specialize (Hmin j Hj). rewrite !Hnth in Hmin by auto.
    destruct (fle (nth j means NaN) (nth b means NaN)) eqn:E; auto.
    assert (L : flt (nth b means NaN) (nth j means NaN) = true)
      by (unfold flt; now rewrite E).
    apply (rank_of_lt means) in L; [lia|]. now apply nth_In.
  - intros j Hj. specialize (Hfirst j Hj).
    rewrite !Hnth in Hfirst by lia.
    unfold flt. destruct (fle (nth b means NaN) (nth j means NaN)) eqn:E; auto.
    apply (rank_of_le means) in E. lia.
Qed.

(** ** The table of results *)

Lemma make_rows_from means (out : list (Z * list (float * float))) s :
  let rows :=
    map (fun ir : nat * (Z * list (float * float)) =>
           let '(i, (alpha, scores)) := ir in
           {| index := i;
              param_ridge__alpha := alpha;
              split_test_score := map fst scores;
              mean_test_score := fmean (map fst scores);
              rank_test_score := rank_of means (fmean (map fst scores));
              split_train_score := map snd scores;
              mean_train_score := fmean (map snd scores) |})
        (combine (seq s (List.length out)) out) in
  map index rows = seq s (List.length out)
  /\ map param_ridge__alpha rows = map fst out
  /\ map split_test_score rows = map (fun r => map fst (snd r)) out
  /\ map mean_test_score rows = map mean_test out
  /\ map rank_test_score rows = map (fun r => rank_of means (mean_test r)) out.
Proof.
  revert s; induction out as [|[alpha scores] out IH]; intros s; simpl.
  - repeat split.
  - destruct (IH (S s)) as (H1 & H2 & H3 & H4 & H5).
    repeat split; f_equal; assumption.
Qed.

Lemma make_rows_spec out :
  map index (make_rows out) = seq 0 (List.length out)
  /\ map param_ridge__alpha (make_rows out) = map fst out
  /\ map split_test_score (make_rows out) = map (fun r => map fst (snd r)) out
  /\ map mean_test_score (make_rows out) = map mean_test out
  /\ map rank_test_score (make_rows out)
     = map (rank_of (map mean_test out)) (map mean_test out).
Proof.
  unfold make_rows.
  destruct (make_rows_from (map (fun r => fmean (map fst (snd r))) out) out 0)
    as (H1 & H2 & H3 & H4 & H5).
  repeat split; auto. rewrite H5, map_map. reflexivity.
Qed.

Lemma make_rows_length out : List.length (make_rows out) = List.length out.
Proof.
  destruct (make_rows_spec out) as (H & _).
  apply (f_equal (@List.length nat)) in H.
  now rewrite length_map, length_seq in H.
Qed.

Lemma make_rows_train out :
  map split_train_score (make_rows out) = map (fun r => map snd (snd r)) out.
Proof.
  unfold make_rows.
  generalize (map (fun r : Z * list (float * float) => fmean (map fst (snd r))) out).
  intros means. generalize 0 at 1.
  induction out as [|[alpha scores] out IH]; intros s; simpl; auto.
  now rewrite IH.
Qed.

Lemma evaluate_candidate_fst est es X y splits grid out :
  mapM (evaluate_candidate est es X y splits) grid = Ok out ->
  map fst out = grid
  /\ Forall (fun r => List.length (snd r) = List.length splits) out.
Proof.
  revert out; induction grid as [|a grid IH]; simpl; intros out H.
  - inversion H; subst. split; constructor.
  - unfold evaluate_candidate at 1 in H.
    destruct (mapM (fit_and_score est es X y a) splits) as [sc|e] eqn:E;
      simpl in H; try discriminate.
    destruct (mapM (evaluate_candidate est es X y splits) grid) as [out'|e];
      simpl in H; try discriminate.
    inversion H; subst. destruct (IH out' eq_refl) as [H1 H2].
    split; simpl; [now f_equal|]. constructor; auto.
    simpl. now apply mapM_length in E.
Qed.

(** What a successful search has computed. *)
Lemma grid_search_fit_inv est grid cv es X y g :
  grid_search_fit est grid cv es X y = Ok g ->
  exists splits out,
    kfold_split cv (List.length (rows X)) = Ok splits
    /\ mapM (evaluate_candidate est es X y splits) grid = Ok out
    /\ out <> []
    /\ cv_results_ g = make_rows out
    /\ best_index_ g = best_of (map mean_test out)
    /\ best_score_ g = nth (best_index_ g) (map mean_test out) NaN
    /\ best_params_ g = nth (best_index_ g) grid 0%Z
    /\ pipeline_fit (clone (set_params (clone est) (best_params_ g))) X y
       = Ok (best_estimator_ g).
Proof.
  unfold grid_search_fit. intros H.
  destruct (kfold_split cv (List.length (rows X))) as [splits|e] eqn:Es;
    simpl in H; try discriminate.
  destruct (mapM (evaluate_candidate est es X y splits) grid) as [out|e] eqn:Eo;
    simpl in H; try discriminate.
  destruct (make_rows_spec out) as (Hi & Hp & Hs & Hm & Hr).
  assert (Hlen := make_rows_length out).
  destruct (make_rows out) as [|r0 rs] eqn:Er; try discriminate.
  set (b := argmin (map rank_test_score (r0 :: rs))) in *.
  destruct (pipeline_fit _ X y) as [be|e] eqn:Ef in H; simpl in H; try discriminate.
  inversion H; subst g; clear H. simpl.
  assert (Hne : out <> []) by (destruct out; simpl in *; congruence).
  assert (Hb : b = best_of (map mean_test out)) by (unfold b, best_of; now rewrite Hr).
  assert (Hblt : b < List.length (r0 :: rs)).
  { rewrite Hb, Hlen.
    destruct (best_of_spec (map mean_test out)) as (L & _).
    - destruct out; simpl in *; congruence.
    - now rewrite length_map in L. }
  exists splits, out. repeat split; auto.
  - rewrite <- Hm.
    rewrite (nth_indep _ NaN (mean_test_score r0)) by now rewrite length_map.
    now rewrite map_nth.
  - destruct (evaluate_candidate_fst _ _ _ _ _ _ _ Eo) as [Hg _].
    rewrite <- Hg, <- Hp.
    rewrite (nth_indep _ 0%Z (param_ridge__alpha r0)) by now rewrite length_map.
    now rewrite map_nth.
Qed.

(** ** Runs of [main] *)

Lemma read_csv_world path w : fst (read_csv path w) = w.
Proof.
  unfold read_csv. destruct (is_dir w (parse_path path)); auto.
  destruct (lookup_file w (parse_path path)) as [[]|]; auto.
Qed.

Lemma main_exits train out w w' r :
  main train out w = (w', r) -> main_exit train out w w' r.
Proof.
  unfold main. intros H. unfold bind at 1 in H.
  assert (Hw := read_csv_world train w).
  destruct (read_csv train w) as [w0 [df|e]] eqn:Er; simpl in Hw; subst w0.
  2:{ inversion H; subst. apply exit_load. unfold loaded. now rewrite Er. }
  unfold bind at 1, lift at 1 in H.
  destruct (drop df _) as [X|e] eqn:Ed.
  2:{ inversion H; subst. apply exit_load. unfold loaded. rewrite Er. cbn [snd rbind].
      now rewrite Ed. }
  unfold bind at 1, lift at 1 in H.
  destruct (getitem df target) as [y|e] eqn:Ey.
  2:{ inversion H; subst. apply exit_load. unfold loaded. rewrite Er. cbn [snd rbind].
      rewrite Ed. cbn [rbind]. now rewrite Ey. }
  assert (Hl : loaded train w = Ok (X, y)).
  { unfold loaded. rewrite Er. cbn [snd rbind]. rewrite Ed. cbn [rbind].
    now rewrite Ey. }
  unfold bind at 1 in H.
  change (print "Searching for hyper-parameters" w)
    with (after_search_msg w, @Ok unit tt) in H.
  cbv beta iota in H.
  unfold bind at 1, lift at 1 in H.
  fold (search X y) in H.
  destruct (search X y) as [g|e] eqn:Es.
  2:{ inversion H; subst. eapply exit_search; eauto. }
  unfold bind at 1 in H.
  change (print_score "R2 score for best model: " (best_score_ g) (after_search_msg w))
    with (after_score_msg w g, @Ok unit tt) in H.
  cbv beta iota in H.
  unfold bind at 1 in H.
  fold (report_of g) in H. fold (write_report out g) in H.
  destruct (write_report out g (after_score_msg w g)) as [w1 [[]|e]] eqn:Ew.
  2:{ inversion H; subst. eapply exit_report; eauto. }
  unfold bind at 1, lift at 1 in H.
  destruct (pipeline_fit (best_estimator_ g) X y) as [fm|e] eqn:Ef.
  2:{ inversion H; subst. eapply exit_final_fit; eauto. }
  unfold bind at 1, global_arguments at 1 in H.
  destruct (arguments w1) as [d|] eqn:Ea.
  2:{ inversion H; subst. eapply exit_arguments; eauto. now rewrite Ea. }
  unfold bind at 1, lift at 1 in H.
  destruct (dict_getitem d "<out>") as [dir|e] eqn:Eg.
  2:{ inversion H; subst. eapply exit_arguments; eauto. now rewrite Ea. }
  unfold bind at 1 in H.
  destruct (print ("Writing model to directory: " ++ dir)%string w1) as [w1' r1] eqn:Ep.
  assert (Hp : w1' = fst (print ("Writing model to directory: " ++ dir)%string w1))
    by now rewrite Ep.
  assert (Hr1 : r1 = Ok tt) by (unfold print in Ep; now inversion Ep).
  subst r1.
  unfold bind at 1 in H.
  destruct (mkdir out w1') as [w2 [[]|e]] eqn:Em.
  2:{ inversion H; subst. eapply exit_mkdir; eauto. }
  subst w1'. eapply exit_dump; eauto.
Qed.

(** ** Paths and files *)

Lemma list_eqb_eq a b : list_eqb a b = true <-> a = b.
Proof.
  revert b; induction a as [|x a IH]; destruct b as [|y b]; simpl;
    try (split; congruence).
  rewrite andb_true_iff, String.eqb_eq, IH. split.
  - intros [-> ->]; auto.
  - intros H; inversion H; auto.
Qed.

Lemma node_eqb_eq a b : node_eqb a b = true <-> a = b.
Proof.
  destruct a as [a1 a2], b as [b1 b2]. unfold node_eqb; simpl.
  rewrite andb_true_iff, Bool.eqb_true_iff, list_eqb_eq. split.
  - intros [-> ->]; auto.
  - intros H; inversion H; auto.
Qed.

Lemma node_eqb_refl a : node_eqb a a = true.
Proof. now apply node_eqb_eq. Qed.

Lemma split_slash_app cur s1 s2 :
  split_slash cur (s1 ++ String "/" s2)%string
  = split_slash cur s1 ++ split_slash [] s2.
Proof.
  revert cur; induction s1 as [|c s1 IH]; intros cur; simpl.
  - reflexivity.
  - destruct (Ascii.eqb c "/"); simpl; now rewrite IH.
Qed.

Lemma last_char_split s c :
  last_char s = Some c -> exists s', s = (s' ++ String c "")%string.
Proof.
  induction s as [|a s IH]; simpl; [discriminate|].
  destruct s as [|b s].
  - intros H; inversion H; subst. now exists "".
  - intros H. destruct (IH H) as [s' E]. exists (String a s'). simpl. now rewrite E.
Qed.

Lemma last_char_none s : last_char s = None -> s = "".
Proof.
  induction s as [|a s IH]; simpl; auto.
  destruct s; [discriminate|]. intros H. specialize (IH H). discriminate.
Qed.

Lemma append_assoc (a b c : string) : ((a ++ b) ++ c = a ++ (b ++ c))%string.
Proof. induction a; simpl; congruence. Qed.

Lemma prefix_slash_app a s t :
  String.prefix "/" (String a s ++ t)%string = String.prefix "/" (String a s).
Proof.
  cbn [String.prefix String.append]. destruct (ascii_dec "/" a); auto.
  destruct (s ++ t)%string, s; reflexivity.
Qed.

(** A file name joined to a directory names the node of that name inside
    the directory. *)
Lemma parse_join out name :
  String.prefix "/" name = false ->
  filter keep_component (split_slash [] name) = [name] ->
  parse_path (os_path_join out name)
  = (fst (parse_path out), snd (parse_path out) ++ [name]).
Proof.
  intros Hp Hn. unfold os_path_join. rewrite Hp.
  destruct (last_char out) as [c|] eqn:El.
  - destruct (last_char_split _ _ El) as [s ->].
    assert (Hfst : forall t, String.prefix "/" ((s ++ String c "") ++ t)%string
                             = String.prefix "/" (s ++ String c "")%string).
    { intros t. destruct s as [|a s].
      - exact (prefix_slash_app c "" t).
      - exact (prefix_slash_app a (s ++ String c "") t). }
    destruct (Ascii.eqb c "/") eqn:Ec.
    + apply Ascii.eqb_eq in Ec; subst c.
      unfold parse_path. fold keep_component. rewrite Hfst. simpl fst. simpl snd.
      f_equal. rewrite append_assoc. simpl append at 2.
      rewrite !split_slash_app, !filter_app, Hn. simpl.
      now rewrite app_nil_r.
    + unfold parse_path. fold keep_component.
      change ("/" ++ name)%string with (String "/" name).
      rewrite Hfst. simpl fst. simpl snd. f_equal.
      rewrite split_slash_app, filter_app, Hn. reflexivity.
  - apply last_char_none in El; subst out.
    unfold parse_path. fold keep_component. rewrite Hp, Hn. reflexivity.
Qed.

Lemma report_node_eq out :
  report_node out = (fst (parse_path out), snd (parse_path out) ++ [report_name]).
Proof. apply parse_join; reflexivity. Qed.

Lemma model_node_eq out :
  model_node out = (fst (parse_path out), snd (parse_path out) ++ [model_name]).
Proof. apply parse_join; reflexivity. Qed.

Lemma parent_report out : parent (report_node out) = parse_path out.
Proof.
  rewrite report_node_eq. unfold parent; cbn [fst snd]. rewrite removelast_last.
  symmetry. apply surjective_pairing.
Qed.

Lemma parent_model out : parent (model_node out) = parse_path out.
Proof.
  rewrite model_node_eq. unfold parent; cbn [fst snd]. rewrite removelast_last.
  symmetry. apply surjective_pairing.
Qed.

Lemma report_model_distinct out : node_eqb (model_node out) (report_node out) = false.
Proof.
  destruct (node_eqb _ _) eqn:E; auto. apply node_eqb_eq in E.
  rewrite report_node_eq, model_node_eq in E. inversion E as [H].
  apply app_inj_tail in H as [_ H]. discriminate.
Qed.

Lemma write_file_ok path c w w' :
  write_file path c w = (w', Ok tt) ->
  is_dir w (parent (parse_path path)) = true
  /\ dirs w' = dirs w
  /\ files w' = put_file (parse_path path) c (files w)
  /\ stdout w' = stdout w
  /\ arguments w' = arguments w.
Proof.
  unfold write_file.
  destruct (is_dir w (parse_path path)); [discriminate|].
  destruct (is_dir w (parent (parse_path path))).
  - intros H; inversion H; subst; simpl. repeat split.
  - destruct (is_file w (parent (parse_path path))); discriminate.
Qed.

Lemma write_file_raise path c w w' e :
  write_file path c w = (w', Raise e) -> w' = w.
Proof.
  unfold write_file.
  destruct (is_dir w (parse_path path)); [congruence|].
  destruct (is_dir w (parent (parse_path path))); [discriminate|].
  destruct (is_file w (parent (parse_path path))); congruence.
Qed.

Lemma mkdir_parents_frame path abs rcomps : forall w w' r,
  mkdir_parents path abs rcomps w = (w', r) ->
  files w' = files w /\ stdout w' = stdout w /\ arguments w' = arguments w
  /\ (forall n, is_dir w n = true -> is_dir w' n = true).
Proof.
  induction rcomps as [|c rparent IH]; intros w w' r H; cbn [mkdir_parents] in H.
  - destruct (is_dir w (abs, rev [])); [|destruct (is_file w (abs, rev []))];
      inversion H; subst; repeat split; auto.
  - destruct (is_dir w (abs, rev (c :: rparent)));
      [inversion H; subst; repeat split; auto|].
    destruct (is_file w (abs, rev (c :: rparent)));
      [inversion H; subst; repeat split; auto|].
    assert (Hadd : forall w0 n0 n, is_dir w0 n = true -> is_dir (add_dir n0 w0) n = true).
    { intros w0 n0 n Hn. unfold is_dir in *; simpl. destruct (snd n); auto.
      now rewrite Hn, orb_true_r. }
    destruct (is_dir w (abs, rev rparent)).
    { inversion H; subst. repeat split; auto. }
    destruct (is_file w (abs, rev rparent)).
    { inversion H; subst. repeat split; auto. }
    destruct (mkdir_parents path abs rparent w) as [w1 [[]|e]] eqn:E;
      inversion H; subst; destruct (IH _ _ _ E) as (Hf & Hs & Ha & Hd);
      repeat split; auto.
Qed.

Lemma mkdir_parents_ok path abs rcomps w w' :
  mkdir_parents path abs rcomps w = (w', Ok tt) ->
  is_dir w' (abs, rev rcomps) = true.
Proof.
  assert (Hnew : forall w0 n, is_dir (add_dir n w0) n = true).
  { intros w0 n. unfold is_dir; simpl. destruct (snd n); auto.
    now rewrite node_eqb_refl. }
  destruct rcomps as [|c rparent]; cbn [mkdir_parents]; intros H.
  - reflexivity.
  - destruct (is_dir w (abs, rev (c :: rparent))) eqn:E; [now inversion H; subst|].
    destruct (is_file w (abs, rev (c :: rparent))); [discriminate|].
    destruct (is_dir w (abs, rev rparent)); [inversion H; subst; apply Hnew|].
    destruct (is_file w (abs, rev rparent)); [discriminate|].
    destruct (mkdir_parents path abs rparent w) as [w1 [[]|e]]; inversion H; subst.
    apply Hnew.
Qed.

Lemma mkdir_ok out w w' :
  mkdir out w = (w', Ok tt) -> is_dir w' (parse_path out) = true.
Proof.
  unfold mkdir. intros H. apply mkdir_parents_ok in H.
  rewrite rev_involutive in H. now rewrite <- surjective_pairing in H.
Qed.

(** A directory that is there is left alone. *)
Lemma mkdir_existing out w :
  is_dir w (parse_path out) = true -> mkdir out w = (w, Ok tt).
Proof.
  unfold mkdir. intros H.
  destruct (rev (snd (parse_path out))) as [|c rparent] eqn:E; cbn [mkdir_parents];
    rewrite <- E, rev_involutive, <- surjective_pairing, H; reflexivity.
Qed.

Lemma lookup_put_same n c fs w :
  files w = put_file n c fs -> lookup_file w n = Some c.
Proof.
  intros H. unfold lookup_file. rewrite H. simpl. now rewrite node_eqb_refl.
Qed.

Lemma find_put_other n n' c fs :
  node_eqb n' n = false ->
  find (fun f => node_eqb n' (fst f)) (put_file n c fs)
  = find (fun f => node_eqb n' (fst f)) fs.
Proof.
  intros Hn. unfold put_file. simpl. rewrite Hn.
  induction fs as [|f fs IH]; simpl; auto.
  destruct (node_eqb n (fst f)) eqn:E; simpl.
  - apply node_eqb_eq in E. rewrite <- E, Hn. exact IH.
  - destruct (node_eqb n' (fst f)); auto.
Qed.

Lemma lookup_put_other n n' c w w0 :
  node_eqb n' n = false ->
  files w = put_file n c (files w0) -> lookup_file w n' = lookup_file w0 n'.
Proof.
  intros Hn H. unfold lookup_file. rewrite H. now rewrite find_put_other.
Qed.

Lemma write_report_ok out g w w1 :
  write_report out g (after_score_msg w g) = (w1, Ok tt) ->
  files w1 = put_file (report_node out) (Report (report_of g)) (files w)
  /\ dirs w1 = dirs w
  /\ arguments w1 = arguments w
  /\ is_dir w (parse_path out) = true.
Proof.
  intros H. apply write_file_ok in H as (Hd & Hdirs & Hf & _ & Ha).
  fold (report_node out) in *. rewrite parent_report in Hd.
  repeat split; auto.
Qed.

Lemma write_report_raise out g w w' e :
  write_report out g (after_score_msg w g) = (w', Raise e) ->
  files w' = files w /\ dirs w' = dirs w /\ arguments w' = arguments w.
Proof. intros H. apply write_file_raise in H. subst. repeat split. Qed.

(** The files at every exit of [main]: as they were, or with the report
    put in place, or with the report and then the model put in place. *)
Lemma main_exit_files train out w w' r :
  main_exit train out w w' r ->
  match r with
  | Ok _ =>
      exists g final_model,
        files w' = put_file (model_node out) (Pickle final_model)
                     (put_file (report_node out) (Report (report_of g)) (files w))
        /\ is_dir w' (parse_path out) = true
  | Raise _ =>
      files w' = files w
      \/ exists g,
          files w' = put_file (report_node out) (Report (report_of g)) (files w)
  end.
Proof.
  intros H. destruct H as
    [ e Hl
    | X y e Hl Hs
    | X y g w' e Hl Hs Hw
    | X y g w1 e Hl Hs Hw Hf
    | X y g w1 fm e Hl Hs Hw Hf Ha
    | X y g w1 fm d dir w2 e Hl Hs Hw Hf Ha Hg Hm
    | X y g w1 fm d dir w2 w' r Hl Hs Hw Hf Ha Hg Hm Hd ].
  - now left.
  - now left.
  - left. now apply write_report_raise in Hw.
  - right. exists g. now apply write_report_ok in Hw.
  - right. exists g. now apply write_report_ok in Hw.
  - right. exists g. apply write_report_ok in Hw as (Hw & _).
    apply mkdir_parents_frame in Hm as (Hm & _). now rewrite Hm.
  - apply write_report_ok in Hw as (Hw & _).
    assert (Hm' := Hm). apply mkdir_parents_frame in Hm' as (Hm' & _).
    simpl in Hm'. destruct r as [[]|e].
    + apply write_file_ok in Hd as (_ & Hdirs & Hfiles & _).
      exists g, fm. split.
      * fold (model_node out) in Hfiles. now rewrite Hfiles, Hm', Hw.
      * apply mkdir_ok in Hm. unfold is_dir in *. now rewrite Hdirs.
    + right. exists g. apply write_file_raise in Hd. subst w'.
      now rewrite Hm', Hw.
Qed.

(** ** The search of the script *)

Lemma param_grid_eq :
  param_grid = [500; 550; 600; 650; 700; 750; 800; 850; 900; 950]%Z.
Proof. reflexivity. Qed.

Lemma test_folds_length sizes : forall start,
  List.length (test_folds start sizes) = List.length sizes.
Proof. induction sizes; simpl; intros; auto. Qed.

Lemma kfold_split_length k n splits :
  kfold_split k n = Ok splits -> List.length splits = k.
Proof.
  unfold kfold_split. destruct (n <? k); [discriminate|].
  intros H; inversion H; subst.
  rewrite length_map, test_folds_length. unfold fold_sizes.
  now rewrite length_map, length_seq.
Qed.

Lemma pipeline_fit_ext p1 p2 X y :
  ridge__alpha p1 = ridge__alpha p2 -> pipeline_fit p1 X y = pipeline_fit p2 X y.
Proof. unfold pipeline_fit. now intros ->. Qed.

Lemma pipeline_fit_alpha p X y p' :
  pipeline_fit p X y = Ok p' -> ridge__alpha p' = ridge__alpha p.
Proof.
  unfold pipeline_fit.
  destruct (preprocessor_fit_transform X); simpl; [|discriminate].
  destruct (ridge_fit _ _ _); simpl; [|discriminate].
  intros H; inversion H; reflexivity.
Qed.

Lemma search_inv X y g :
  search X y = Ok g ->
  exists splits out,
    kfold_split 5 (List.length (rows X)) = Ok splits
    /\ List.length splits = 5
    /\ mapM (evaluate_candidate ml_pipe (error_value NaN) X y splits) param_grid = Ok out
    /\ List.length out = 10
    /\ map fst out = param_grid
    /\ Forall (fun r => List.length (snd r) = 5) out
    /\ cv_results_ g = make_rows out
    /\ best_index_ g = best_of (map mean_test out)
    /\ best_index_ g < 10
    /\ best_score_ g = nth (best_index_ g) (map mean_test out) NaN
    /\ best_params_ g = nth (best_index_ g) param_grid 0%Z
    /\ pipeline_fit (set_params ml_pipe (best_params_ g)) X y = Ok (best_estimator_ g).
Proof.
  intros H. apply grid_search_fit_inv in H
    as (splits & out & Hk & Ho & Hne & Hr & Hb & Hs & Hp & Hf).
  fold param_grid in Ho, Hp.
  destruct (evaluate_candidate_fst _ _ _ _ _ _ _ Ho) as [Hg Hl].
  assert (Hlen : List.length out = 10).
  { rewrite <- (length_map fst), Hg. reflexivity. }
  assert (Hsl := kfold_split_length _ _ _ Hk).
  exists splits, out. repeat split; auto.
  - now rewrite Hsl in Hl.
  - rewrite Hb. destruct (best_of_spec (map mean_test out)) as (L & _).
    + destruct out; simpl in *; congruence.
    + now rewrite length_map, Hlen in L.
Qed.

(** The fit of line 81 repeats the refit that ended the search. *)
Lemma final_fit_same X y g :
  search X y = Ok g ->
  pipeline_fit (best_estimator_ g) X y = Ok (best_estimator_ g).
Proof.
  intros H. apply search_inv in H as (splits & out & H).
  destruct H as (_ & _ & _ & _ & _ & _ & _ & _ & _ & _ & _ & Hf).
  rewrite <- Hf. apply pipeline_fit_ext.
  now apply pipeline_fit_alpha in Hf.
Qed.

Lemma nth_make_rows out i d :
  i < List.length out ->
  mean_test_score (nth i (make_rows out) d) = nth i (map mean_test out) NaN
  /\ param_ridge__alpha (nth i (make_rows out) d) = nth i (map fst out) 0%Z
  /\ split_test_score (nth i (make_rows out) d)
     = map fst (snd (nth i out (0%Z, [])))
  /\ rank_test_score (nth i (make_rows out) d)
     = rank_of (map mean_test out) (nth i (map mean_test out) NaN)
  /\ index (nth i (make_rows out) d) = i.
Proof.
  intros Hi. destruct (make_rows_spec out) as (H1 & H2 & H3 & H4 & H5).
  assert (Hl := make_rows_length out).
  repeat split.
  - rewrite <- H4. rewrite (nth_indep _ NaN (mean_test_score d))
      by now rewrite length_map, Hl.
    now rewrite map_nth.
  - rewrite <- H2. rewrite (nth_indep _ 0%Z (param_ridge__alpha d))
      by now rewrite length_map, Hl.
    now rewrite map_nth.
  - rewrite <- (map_nth split_test_score), H3.
    rewrite (nth_indep _ _ ((fun r : Z * list (float * float) => map fst (snd r)) (0%Z, [])))
      by now rewrite length_map.
    exact (map_nth (fun r : Z * list (float * float) => map fst (snd r)) out (0%Z, []) i).
  - rewrite <- (map_nth rank_test_score), H5.
    rewrite (nth_indep _ _ (rank_of (map mean_test out) NaN))
      by now rewrite !length_map.
    now rewrite (map_nth (rank_of (map mean_test out))).
  - rewrite <- (map_nth index), H1.
    rewrite (nth_indep _ _ 0) by now rewrite length_seq.
    now rewrite seq_nth.
Qed.

(** Every candidate on every fold: the table holds what [fit_and_score]
    returns. *)
Lemma search_fold_scores X y g splits i k d :
  search X y = Ok g ->
  kfold_split 5 (List.length (rows X)) = Ok splits ->
  i < 10 -> k < 5 ->
  fit_and_score ml_pipe (error_value NaN) X y
                (nth i param_grid 0%Z) (nth k splits ([], []))
  = Ok (nth k (split_test_score (nth i (cv_results_ g) d)) NaN,
        nth k (split_train_score (nth i (cv_results_ g) d)) NaN)
  /\ List.length (split_test_score (nth i (cv_results_ g) d)) = 5.
Proof.
  intros H Hk' Hi' Hk2. destruct (search_inv X y g H) as (splits' & out & Hinv).
  destruct Hinv as (Hk & Hsl & Ho & Hlen & Hg & Hfolds & Hr & _).
  rewrite Hk' in Hk. inversion Hk; subst splits'. clear Hk.
  assert (Hev := mapM_nth _ _ _ 0%Z (0%Z, []) i Ho).
  rewrite <- Hg in Hev at 1. rewrite length_map in Hev.
  specialize (Hev ltac:(lia)).
  unfold evaluate_candidate in Hev.
  destruct (mapM _ splits) as [scores|e] eqn:Em; simpl in Hev; [|discriminate].
  inversion Hev as [Heq]. clear Hev.
  assert (Hsc := mapM_nth _ _ _ ([], []) (NaN, NaN) k Em ltac:(lia)).
  rewrite Hsc. rewrite Hr.
  assert (Hrow : split_test_score (nth i (make_rows out) d) = map fst scores
                 /\ split_train_score (nth i (make_rows out) d) = map snd scores).
  { destruct (nth_make_rows out i d) as (_ & _ & Ht & _); [lia|].
    split.
    - now rewrite Ht, <- Heq.
    - rewrite <- (map_nth split_train_score), make_rows_train.
      rewrite (nth_indep _ _ ((fun r : Z * list (float * float) => map snd (snd r)) (0%Z, [])))
        by (rewrite length_map; lia).
      rewrite (map_nth (fun r : Z * list (float * float) => map snd (snd r)) out (0%Z, []) i).
      now rewrite <- Heq. }
  destruct Hrow as [-> ->]. split.
  - change (nth k (map fst scores) NaN)
      with (nth k (map fst scores) (fst (NaN, NaN))).
    change (nth k (map snd scores) NaN)
      with (nth k (map snd scores) (snd (NaN, NaN))).
    rewrite !map_nth. now destruct (nth k scores (NaN, NaN)).
  - rewrite length_map. apply mapM_length in Em. lia.
Qed.

Lemma fit_and_score_fit_raise est s X y alpha split e :
  pipeline_fit (set_params (clone est) alpha)
               (iloc X (fst split)) (take (Flt NaN) y (fst split)) = Raise e ->
  fit_and_score est (error_value s) X y alpha split = Ok (s, s).
Proof. unfold fit_and_score. now intros ->. Qed.

Lemma fold_fadd_nan l : fold_left fadd l NaN = NaN.
Proof. induction l as [|x l IH]; simpl; auto. Qed.

Lemma fsum_nan l : In NaN l -> fsum l = NaN.
Proof.
  unfold fsum. generalize (Fin 0). induction l as [|x l IH]; simpl; [tauto|].
  intros acc [->|Hin].
  - destruct acc; simpl; apply fold_fadd_nan.
  - now apply IH.
Qed.

Lemma fmean_nan l : In NaN l -> fmean l = NaN.
Proof. intros H. unfold fmean. now rewrite fsum_nan. Qed.

(** ** Runs that get to the model artifact *)

Lemma write_file_succeeds path c w :
  is_dir w (parse_path path) = false ->
  is_dir w (parent (parse_path path)) = true ->
  exists w', write_file path c w = (w', Ok tt).
Proof. unfold write_file. intros -> ->. eauto. Qed.

Lemma loaded_inv train w X y :
  loaded train w = Ok (X, y) ->
  exists df,
    read_csv train w = (w, Ok df)
    /\ drop df ([target] ++ drop_features) = Ok X
    /\ getitem df target = Ok y
    /\ rows X = rows df
    /\ y = map (fun r => r target) (rows df).
Proof.
  unfold loaded. intros H. assert (Hw := read_csv_world train w).
  destruct (read_csv train w) as [w0 [df|e]]; simpl in *; subst; [|discriminate].
  destruct (drop df _) as [X'|e] eqn:Ed; simpl in H; [|discriminate].
  destruct (getitem df target) as [y'|e] eqn:Ey; simpl in H; [|discriminate].
  inversion H; subst. exists df. repeat split; auto.
  - unfold drop in Ed. destruct (filter _ _); [|discriminate].
    now inversion Ed.
  - unfold getitem in Ey. destruct (has_column df target); [|discriminate].
    now inversion Ey.
Qed.


Lemma is_dir_dirs w1 w2 n : dirs w1 = dirs w2 -> is_dir w1 n = is_dir w2 n.
Proof. unfold is_dir. now intros ->. Qed.

(** The last step of [main] when the table loads, the search succeeds,
    the report can be written and [arguments] is bound: the model
    artifact is written into the world that holds the report. *)
Lemma main_reaches_dump train out w X y g d dir w' r :
  loaded train w = Ok (X, y) ->
  search X y = Ok g ->
  is_dir w (parse_path out) = true ->
  is_dir w (report_node out) = false ->
  arguments w = Some d ->
  dict_getitem d "<out>" = Ok dir ->
  main train out w = (w', r) ->
  exists w2,
    files w2 = put_file (report_node out) (Report (report_of g)) (files w)
    /\ dirs w2 = dirs w
    /\ write_file (os_path_join out model_name) (Pickle (best_estimator_ g)) w2
       = (w', r).
Proof.
  intros Hl Hs Hd Hnd Ha Hg H. apply main_exits in H.
  assert (Hwrite : exists w1,
             write_report out g (after_score_msg w g) = (w1, Ok tt)).
  { apply write_file_succeeds; fold (report_node out).
    - exact Hnd.
    - now rewrite parent_report. }
  destruct Hwrite as [w1 Hw1].
  destruct H as
    [ e Hl'
    | X' y' e Hl' Hs'
    | X' y' g' w' e Hl' Hs' Hw
    | X' y' g' w1' e Hl' Hs' Hw Hf
    | X' y' g' w1' fm e Hl' Hs' Hw Hf Ha'
    | X' y' g' w1' fm d' dir' w2 e Hl' Hs' Hw Hf Ha' Hg' Hm
    | X' y' g' w1' fm d' dir' w2 w' r Hl' Hs' Hw Hf Ha' Hg' Hm Hdump ];
    rewrite Hl in Hl'; try discriminate; inversion Hl'; subst X' y';
    rewrite Hs in Hs'; try discriminate; inversion Hs'; subst g'.
  - rewrite Hw1 in Hw. discriminate.
  - rewrite (final_fit_same _ _ _ Hs) in Hf. discriminate.
  - apply write_report_ok in Hw as (_ & _ & Hargs & _).
    rewrite Hargs, Ha, Hg in Ha'. discriminate.
  - apply write_report_ok in Hw as (_ & Hdirs & _).
    rewrite mkdir_existing in Hm; [discriminate|].
    rewrite <- Hd. apply is_dir_dirs. exact Hdirs.
  - rewrite (final_fit_same _ _ _ Hs) in Hf. inversion Hf; subst fm.
    apply write_report_ok in Hw as (Hfiles & Hdirs & _).
    rewrite mkdir_existing in Hm.
    2:{ rewrite <- Hd. apply is_dir_dirs. exact Hdirs. }
    inversion Hm; subst w2. eexists. split; [|split]; [| |exact Hdump]; assumption.
Qed.

(** When nothing stands in the way, [main] runs to its end. *)
Lemma main_completes train out w X y g d dir :
  loaded train w = Ok (X, y) ->
  search X y = Ok g ->
  is_dir w (parse_path out) = true ->
  is_dir w (report_node out) = false ->
  is_dir w (model_node out) = false ->
  arguments w = Some d ->
  dict_getitem d "<out>" = Ok dir ->
  exists w', main train out w = (w', Ok tt).
Proof.
  intros Hl Hs Hd Hnd Hnm Ha Hg.
  destruct (main train out w) as [w' r] eqn:E. exists w'.
  destruct (main_reaches_dump _ _ _ _ _ _ _ _ _ _ Hl Hs Hd Hnd Ha Hg E)
    as (w2 & _ & Hdirs & Hw).
  destruct (write_file_succeeds (os_path_join out model_name)
              (Pickle (best_estimator_ g)) w2) as [w3 E3].
  - fold (model_node out). rewrite <- Hnm. now apply is_dir_dirs.
  - fold (model_node out). rewrite parent_model, <- Hd. now apply is_dir_dirs.
  - rewrite E3 in Hw. now inversion Hw.
Qed.

(** When the model artifact's path is a directory, [main] stops there,
    with the report written. *)
Lemma main_stops_at_dump train out w X y g d dir :
  loaded train w = Ok (X, y) ->
  search X y = Ok g ->
  is_dir w (parse_path out) = true ->
  is_dir w (report_node out) = false ->
  is_dir w (model_node out) = true ->
  arguments w = Some d ->
  dict_getitem d "<out>" = Ok dir ->
  exists w',
    main train out w = (w', Raise (IsADirectoryError (os_path_join out model_name)))
    /\ files w' = put_file (report_node out) (Report (report_of g)) (files w).
Proof.
  intros Hl Hs Hd Hnd Hm Ha Hg.
  destruct (main train out w) as [w' r] eqn:E. exists w'.
  destruct (main_reaches_dump _ _ _ _ _ _ _ _ _ _ Hl Hs Hd Hnd Ha Hg E)
    as (w2 & Hfiles & Hdirs & Hw).
  unfold write_file in Hw. fold (model_node out) in Hw.
  rewrite (is_dir_dirs w2 w _ Hdirs), Hm in Hw.
  inversion Hw; subst. split; auto.
Qed.

(** ** What does fail the search *)

Lemma pipeline_fit_is_ok p1 p2 X y :
  is_ok (pipeline_fit p1 X y) = is_ok (pipeline_fit p2 X y).
Proof.
  unfold pipeline_fit, ridge_fit.
  destruct (preprocessor_fit_transform X); cbn [rbind]; auto.
  destruct (check_array _); cbn [rbind]; auto.
  destruct (check_target y); cbn [rbind]; auto.
  destruct (_ =? _); reflexivity.
Qed.

Lemma search_needs_whole_fit X y p :
  is_ok (pipeline_fit p X y) = false -> is_ok (search X y) = false.
Proof.
  intros H. destruct (search X y) as [g|e] eqn:E; auto.
  apply search_inv in E as (splits & out & E).
  destruct E as (_ & _ & _ & _ & _ & _ & _ & _ & _ & _ & _ & Hf).
  rewrite (pipeline_fit_is_ok p (set_params ml_pipe (best_params_ g))), Hf in H.
  discriminate.
Qed.

Lemma search_needs_five_rows X y :
  List.length (rows X) < 5 -> is_ok (search X y) = false.
Proof.
  intros H. destruct (search X y) as [g|e] eqn:E; auto.
  apply search_inv in E as (splits & out & Hk & _).
  unfold kfold_split in Hk. apply Nat.ltb_lt in H. rewrite H in Hk. discriminate.
Qed.

(** ** Runs that succeed, and the output directory *)

Lemma report_not_model out : node_eqb (report_node out) (model_node out) = false.
Proof.
  destruct (node_eqb (report_node out) (model_node out)) eqn:E; auto.
  apply node_eqb_eq in E. pose proof (report_model_distinct out) as D.
  rewrite E, node_eqb_refl in D. discriminate.
Qed.

Lemma main_ok_inv train out w w' :
  main train out w = (w', Ok tt) ->
  exists X y g,
    loaded train w = Ok (X, y)
    /\ search X y = Ok g
    /\ lookup_file w' (report_node out) = Some (Report (report_of g))
    /\ lookup_file w' (model_node out) = Some (Pickle (best_estimator_ g)).
Proof.
  intros H. apply main_exits in H.
  inversion H as
    [ | | | |
    | | X y g w1 fm d dir w2 w0 r Hl Hs Hw Hf Ha Hg Hm Hd ]; subst.
  rewrite (final_fit_same _ _ _ Hs) in Hf. inversion Hf; subst fm.
  apply write_report_ok in Hw as (Hfiles & Hdirs & _ & Hdir).
  rewrite mkdir_existing in Hm
    by (rewrite <- Hdir; apply is_dir_dirs; exact Hdirs).
  inversion Hm; subst w2.
  apply write_file_ok in Hd as (_ & _ & Hfiles' & _).
  fold (model_node out) in Hfiles'. simpl files in Hfiles'.
  exists X, y, g. repeat split; auto.
  - rewrite (lookup_put_other (model_node out) (report_node out) _ w' w1
               (report_not_model out) Hfiles').
    eapply lookup_put_same; eauto.
  - eapply lookup_put_same; eauto.
Qed.

(** [main] creates no directory: by the time [mkdir] runs, the report has
    been written into [out], so [out] is there. *)
Lemma main_creates_no_directory train out w w' r :
  main train out w = (w', r) -> dirs w' = dirs w.
Proof.
  intros H. apply main_exits in H.
  destruct H as
    [ e Hl
    | X y e Hl Hs
    | X y g w' e Hl Hs Hw
    | X y g w1 e Hl Hs Hw Hf
    | X y g w1 fm e Hl Hs Hw Hf Ha
    | X y g w1 fm d dir w2 e Hl Hs Hw Hf Ha Hg Hm
    | X y g w1 fm d dir w2 w' r Hl Hs Hw Hf Ha Hg Hm Hd ]; auto.
  - now apply write_report_raise in Hw.
  - now apply write_report_ok in Hw.
  - now apply write_report_ok in Hw.
  - apply write_report_ok in Hw as (_ & Hdirs & _ & Hdir).
    rewrite mkdir_existing in Hm
      by (rewrite <- Hdir; apply is_dir_dirs; exact Hdirs).
    discriminate.
  - apply write_report_ok in Hw as (_ & Hdirs & _ & Hdir).
    rewrite mkdir_existing in Hm
      by (rewrite <- Hdir; apply is_dir_dirs; exact Hdirs).
    inversion Hm; subst w2.
    destruct r as [[]|e].
    + apply write_file_ok in Hd as (_ & Hd & _). now rewrite Hd.
    + apply write_file_raise in Hd. now subst.
Qed.

(** Without the output directory the run cannot succeed. *)
Lemma main_needs_output_directory train out w w' r :
  is_dir w (parse_path out) = false ->
  main train out w = (w', r) -> r <> Ok tt.
Proof.
  intros Hd H Hr. subst r. apply main_exits in H.
  inversion H as
    [ | | | |
    | | X y g w1 fm d dir w2 w0 r Hl Hs Hw Hf Ha Hg Hm Hdump ]; subst.
  apply write_report_ok in Hw as (_ & _ & _ & Hdir). congruence.
Qed.

(** From the command line, [arguments] is bound when [main] starts. *)
Lemma entry_point_runs_main train out w :
  is_option train = false -> is_option out = false ->
  exists d,
    dict_getitem d "<out>" = Ok out
    /\ entry_point [train; out] w
       = main train out
           {| dirs := dirs w; files := files w;
              stdout := stdout w
                        ++ [Echo ("Constructing model from train data " ++ train)%string];
              arguments := Some d |}.
Proof.
  intros Ht Ho. unfold entry_point, docopt. rewrite Ht, Ho. cbn [orb].
  eexists. split; [|reflexivity]. reflexivity.
Qed.

(** * The claims *)


(** C4.  The grid is the ten strengths 500, 550, ..., 950 in this order;
    a successful search has split the rows into five folds and has, for
    every candidate and every fold, the scores that fitting and scoring
    that candidate on that fold gives; its table has one row per
    candidate, in grid order, and the report is a rearrangement of the
    table, so it has exactly ten rows. *)
Theorem grid_enumerated_exhaustively X y g :
  search X y = Ok g ->
  param_grid = [500; 550; 600; 650; 700; 750; 800; 850; 900; 950]%Z
  /\ map param_ridge__alpha (cv_results_ g) = param_grid
  /\ map index (cv_results_ g) = seq 0 10
  /\ (exists splits,
        kfold_split 5 (List.length (rows X)) = Ok splits
        /\ List.length splits = 5
        /\ forall i k d, i < 10 -> k < 5 ->
             fit_and_score ml_pipe (error_value NaN) X y
                           (nth i param_grid 0%Z) (nth k splits ([], []))
             = Ok (nth k (split_test_score (nth i (cv_results_ g) d)) NaN,
                   nth k (split_train_score (nth i (cv_results_ g) d)) NaN))
  /\ Permutation (cv_results_ g) (report_of g)
  /\ List.length (report_of g) = 10.
Proof.
  intros H. destruct (search_inv X y g H) as (splits & out & Hinv).
  destruct Hinv as (Hk & Hsl & Ho & Hlen & Hg & Hfolds & Hr & _).
  destruct (make_rows_spec out) as (Hi & Hp & Hst & _).
  split; [reflexivity|].
  split; [now rewrite Hr, Hp|].
  split; [now rewrite Hr, Hi, Hlen|].
  split.
  - exists splits. repeat split; auto. intros i k d Hi' Hk'.
    now destruct (search_fold_scores X y g splits i k d H Hk Hi' Hk').
  - split; [apply sort_values_perm|].
    unfold report_of.
    rewrite <- (Permutation_length (sort_values_perm mean_test_score (cv_results_ g))).
    now rewrite Hr, make_rows_length.
Qed.

(** When every key is NaN, [sort_values] leaves the rows as they are. *)
Lemma sort_values_all_nan key l :
  (forall r, In r l -> key r = NaN) -> sort_values key l = l.
Proof.
  intros H. unfold sort_values.
  assert (H12 : filter (fun r => negb (isnan (key r))) l = []
                /\ filter (fun r => isnan (key r)) l = l).
  { induction l as [|a l IH]; cbn [filter]; [split; reflexivity|].
    rewrite (H a (or_introl eq_refl)). cbn [isnan negb].
    destruct IH as [I1 I2]; [intros r Hr; apply H; now right|].
    split; [exact I1|now rewrite I2]. }
  destruct H12 as [H1 H2].
  rewrite H1, H2. reflexivity.
Qed.

(** When every mean is NaN, the first candidate is the one selected. *)
Lemma best_of_all_nan means :
  means <> [] ->
  (forall j, j < List.length means -> nth j means NaN = NaN) ->
  best_of means = 0.
Proof.
  intros Hne Hall. destruct (best_of_spec means Hne) as (Hlt & _ & Hfirst).
  destruct (best_of means) as [|b] eqn:E; [reflexivity|].
  specialize (Hfirst 0 (Nat.lt_0_succ b)).
  rewrite (Hall 0), (Hall (S b) Hlt) in Hfirst by lia. discriminate.
Qed.

(** C2, as the code has it.  [GridSearchCV] is built with [error_score]
    at its default NaN: when fitting a candidate on the training part of
    a fold raises, the search does not fail on that account, and no fold
    is dropped.  Whether a fit raises does not depend on the
    regularization strength, so that fold fails for every candidate: in a
    search that succeeds, each of the ten candidates has its five fold
    scores, with NaN for that fold, and a mean held-out score of NaN; the
    first candidate of the grid, strength 500, is the one selected and
    refitted; the best score is NaN; and the report lists the candidates
    in grid order.  The search does fail when the pipeline cannot be
    fitted on the whole table, and when the table has fewer than five
    rows. *)
Theorem failed_fold_scored_nan :
  (forall X y g splits i k e,
      search X y = Ok g ->
      kfold_split 5 (List.length (rows X)) = Ok splits ->
      i < 10 -> k < 5 ->
      pipeline_fit (set_params (clone ml_pipe) (nth i param_grid 0%Z))
                   (iloc X (fst (nth k splits ([], []))))
                   (take (Flt NaN) y (fst (nth k splits ([], [])))) = Raise e ->
      List.length (cv_results_ g) = 10
      /\ (forall j d, j < 10 ->
            List.length (split_test_score (nth j (cv_results_ g) d)) = 5
            /\ nth k (split_test_score (nth j (cv_results_ g) d)) (Fin 0) = NaN
            /\ mean_test_score (nth j (cv_results_ g) d) = NaN)
      /\ best_index_ g = 0
      /\ best_params_ g = 500%Z
      /\ ridge__alpha (best_estimator_ g) = 500%Z
      /\ best_score_ g = NaN
      /\ report_of g = cv_results_ g)
  /\ (forall X y p,
        is_ok (pipeline_fit p X y) = false -> is_ok (search X y) = false)
  /\ (forall X y,
        List.length (rows X) < 5 -> is_ok (search X y) = false).
Proof.
  split; [|split; [exact search_needs_whole_fit|exact search_needs_five_rows]].
  intros X y g splits i k e H Hk Hi Hk' Hfit.
  destruct (search_inv X y g H) as (splits' & out & Hinv).
  destruct Hinv as (_ & _ & _ & Hlen & _ & _ & Hr & Hbi & _ & Hbs & Hbp & Hfinal).
  (* the fold fails for every candidate *)
  assert (Hrow : forall j d, j < 10 ->
             List.length (split_test_score (nth j (cv_results_ g) d)) = 5
             /\ nth k (split_test_score (nth j (cv_results_ g) d)) (Fin 0) = NaN
             /\ mean_test_score (nth j (cv_results_ g) d) = NaN).
  { intros j d Hj.
    pose proof (pipeline_fit_is_ok
                  (set_params (clone ml_pipe) (nth j param_grid 0%Z))
                  (set_params (clone ml_pipe) (nth i param_grid 0%Z))
                  (iloc X (fst (nth k splits ([], []))))
                  (take (Flt NaN) y (fst (nth k splits ([], []))))) as Eok.
    rewrite Hfit in Eok.
    destruct (pipeline_fit (set_params (clone ml_pipe) (nth j param_grid 0%Z))
                (iloc X (fst (nth k splits ([], []))))
                (take (Flt NaN) y (fst (nth k splits ([], []))))) as [f|e'] eqn:Hfj;
      [discriminate|].
    destruct (search_fold_scores X y g splits j k d H Hk Hj Hk') as [Hsc Hfive].
    rewrite (fit_and_score_fit_raise _ _ _ _ _ _ _ Hfj) in Hsc.
    inversion Hsc as [[Htest Htrain]]. clear Hsc.
    split; [exact Hfive|].
    assert (Hnth : nth k (split_test_score (nth j (cv_results_ g) d)) (Fin 0) = NaN).
    { rewrite (nth_indep _ _ NaN) by lia. now rewrite <- Htest. }
    split; [exact Hnth|].
    rewrite Hr in *. destruct (nth_make_rows out j d) as (Hm & _ & Ht & _); [lia|].
    rewrite Hm. rewrite (nth_indep _ NaN (mean_test (0%Z, [])))
      by (rewrite length_map; lia).
    rewrite map_nth. unfold mean_test. rewrite <- Ht. apply fmean_nan.
    rewrite Htest at 1. apply nth_In. lia. }
  set (d0 := {| index := 0; param_ridge__alpha := 0%Z; split_test_score := [];
                mean_test_score := NaN; rank_test_score := 0;
                split_train_score := []; mean_train_score := NaN |}).
  assert (Hmeans : forall j, j < List.length (map mean_test out) ->
             nth j (map mean_test out) NaN = NaN).
  { intros j Hj. rewrite length_map, Hlen in Hj.
    destruct (Hrow j d0 Hj) as (_ & _ & Hm). rewrite Hr in Hm.
    destruct (nth_make_rows out j d0) as (Hm' & _); [lia|]. now rewrite <- Hm'. }
  assert (Hne : map mean_test out <> []) by (destruct out; discriminate).
  assert (Hbest : best_index_ g = 0)
    by (rewrite Hbi; exact (best_of_all_nan _ Hne Hmeans)).
  assert (Hparams : best_params_ g = 500%Z) by (rewrite Hbp, Hbest; reflexivity).
  split; [now rewrite Hr, make_rows_length|].
  split; [exact Hrow|]. split; [exact Hbest|]. split; [exact Hparams|]. split.
  - rewrite (pipeline_fit_alpha _ _ _ _ Hfinal). exact Hparams.
  - split.
    + rewrite Hbs. apply Hmeans. rewrite length_map, Hlen, Hbest. lia.
    + apply sort_values_all_nan. intros r Hin.
      destruct (In_nth _ _ d0 Hin) as (j & Hj & <-).
      rewrite Hr, make_rows_length, Hlen in Hj. apply (Hrow j d0 Hj).
Qed.

(** C3, as the code has it.  The artifacts are written in sequence: a run
    that succeeds leaves the report and the model artifact in the output
    directory, which then exists; a run that fails leaves the files as
    they were, or with the report alone put in place. *)
Theorem artifacts_written_in_sequence train out w w' r :
  main train out w = (w', r) ->
  match r with
  | Ok _ =>
      exists g final_model,
        lookup_file w' (report_node out) = Some (Report (report_of g))
        /\ lookup_file w' (model_node out) = Some (Pickle final_model)
        /\ is_dir w' (parse_path out) = true
  | Raise _ =>
      files w' = files w
      \/ exists g,
          files w' = put_file (report_node out) (Report (report_of g)) (files w)
  end.
Proof.
  intros H. apply main_exits, main_exit_files in H.
  destruct r as [[]|e]; auto.
  destruct H as (g & fm & Hf & Hd). exists g, fm. repeat split; auto.
  - unfold lookup_file. rewrite Hf.
    rewrite find_put_other.
    + simpl. now rewrite node_eqb_refl.
    + destruct (node_eqb (report_node out) (model_node out)) eqn:E; auto.
      apply node_eqb_eq in E.
      pose proof (report_model_distinct out) as D.
      rewrite E, node_eqb_refl in D. discriminate.
  - eapply lookup_put_same; eauto.
Qed.

(** C6.  When the run succeeds, the model artifact holds the pipeline
    obtained by fitting the unfitted pipeline of the script, with the
    regularization strength of the best candidate, on all rows of the
    training table (the table read from the file, without the target and
    the dropped columns) and on its whole target column. *)
Theorem persisted_model_is_best_refit train out w w' :
  main train out w = (w', Ok tt) ->
  exists df X y g final_model,
    read_csv train w = (w, Ok df)
    /\ drop df ([target] ++ drop_features) = Ok X
    /\ rows X = rows df
    /\ y = map (fun r => r target) (rows df)
    /\ search X y = Ok g
    /\ best_params_ g = nth (best_index_ g) param_grid 0%Z
    /\ pipeline_fit (set_params ml_pipe (best_params_ g)) X y = Ok final_model
    /\ ridge__alpha final_model = best_params_ g
    /\ lookup_file w' (model_node out) = Some (Pickle final_model).
Proof.
  intros H. apply main_exits in H.
  inversion H as
    [ | | | |
    | | X y g w1 fm d dir w2 w0 r Hl Hs Hw Hf Ha Hg Hm Hd ]; subst.
  destruct (loaded_inv _ _ _ _ Hl) as (df & Hr & Hdrop & _ & Hrows & Hy).
  rewrite (final_fit_same _ _ _ Hs) in Hf. inversion Hf; subst fm.
  destruct (search_inv _ _ _ Hs) as (splits & o & Hinv).
  destruct Hinv as (_ & _ & _ & _ & _ & _ & _ & _ & _ & _ & Hp & Hfit).
  exists df, X, y, g, (best_estimator_ g). repeat split; auto.
  - now apply pipeline_fit_alpha in Hfit.
  - apply write_file_ok in Hd as (_ & _ & Hfiles & _).
    eapply lookup_put_same; eauto.
Qed.

(** C10.  When [arguments] is not bound, [main] never returns normally;
    and when the table loads, the search succeeds and the report can be
    written ([out] is a directory and the report's path is not one),
    [main] raises [NameError] for [arguments] with the report in place,
    the model artifact's path untouched and no directory created. *)
Theorem main_without_arguments train out w w' r :
  arguments w = None ->
  main train out w = (w', r) ->
  r <> Ok tt
  /\ forall X y g,
       loaded train w = Ok (X, y) ->
       search X y = Ok g ->
       is_dir w (parse_path out) = true ->
       is_dir w (report_node out) = false ->
       r = Raise (NameError "arguments")
       /\ lookup_file w' (report_node out) = Some (Report (report_of g))
       /\ lookup_file w' (model_node out) = lookup_file w (model_node out)
       /\ dirs w' = dirs w.
Proof.
  intros Hnone H. apply main_exits in H.
  destruct H as
    [ e Hl
    | X y e Hl Hs
    | X y g w' e Hl Hs Hw
    | X y g w1 e Hl Hs Hw Hf
    | X y g w1 fm e Hl Hs Hw Hf Ha
    | X y g w1 fm d dir w2 e Hl Hs Hw Hf Ha Hg Hm
    | X y g w1 fm d dir w2 w' r Hl Hs Hw Hf Ha Hg Hm Hd ].
  - split; [discriminate|]. intros; congruence.
  - split; [discriminate|]. intros X' y' g' Hl' Hs'. congruence.
  - split; [discriminate|]. intros X' y' g' Hl' Hs' Hd Hnd.
    rewrite Hl in Hl'. inversion Hl'; subst. rewrite Hs in Hs'. inversion Hs'; subst.
    exfalso. unfold write_report in Hw.
    destruct (write_file_succeeds (os_path_join out report_name)
                (Report (report_of g')) (after_score_msg w g')) as [w1 E].
    + exact Hnd.
    + fold (report_node out). now rewrite parent_report.
    + congruence.
  - rewrite (final_fit_same _ _ _ Hs) in Hf. discriminate.
  - split; [discriminate|]. intros X' y' g' Hl' Hs' Hd Hnd.
    rewrite Hl in Hl'. inversion Hl'; subst. rewrite Hs in Hs'. inversion Hs'; subst.
    apply write_report_ok in Hw as (Hfiles & Hdirs & Hargs & _).
    rewrite Hargs, Hnone in Ha. subst e. repeat split; auto.
    + eapply lookup_put_same; eauto.
    + eapply lookup_put_other; eauto. apply report_model_distinct.
  - apply write_report_ok in Hw as (_ & _ & Hargs & _). congruence.
  - apply write_report_ok in Hw as (_ & _ & Hargs & _). congruence.
Qed.

(** ** The transformers *)

Lemma encode_declared phase c :
  declared c = true ->
  encode_ordinal sentiment_categories phase c = Ok (position c).
Proof.
  destruct c as [s|x]; simpl; [|discriminate].
  destruct (String.eqb s "neg"); [reflexivity|].
  destruct (String.eqb s "compound"); [reflexivity|].
  destruct (String.eqb s "neu"); [reflexivity|].
  destruct (String.eqb s "pos"); [reflexivity|discriminate].
Qed.

Lemma encode_undeclared phase c :
  declared c = false ->
  exists e, encode_ordinal sentiment_categories phase c = Raise e
            /\ unknown_category_error e = true.
Proof.
  destruct c as [s|x]; simpl.
  - destruct (String.eqb s "neg"); [discriminate|].
    destruct (String.eqb s "compound"); [discriminate|].
    destruct (String.eqb s "neu"); [discriminate|].
    destruct (String.eqb s "pos"); [discriminate|].
    intros _. eexists; split; reflexivity.
  - intros _. eexists; split; reflexivity.
Qed.

Lemma mapM_raise {A B} (f : A -> result B) (P : exn -> Prop) xs :
  (forall x, In x xs -> forall e, f x = Raise e -> P e) ->
  (exists x, In x xs /\ is_ok (f x) = false) ->
  exists e, mapM f xs = Raise e /\ P e.
Proof.
  induction xs as [|x xs IH]; simpl; intros HP [x0 [Hin Hx0]]; [tauto|].
  destruct (f x) as [b|e] eqn:Ex; simpl.
  - destruct IH as (e & He & HPe).
    + intros x1 Hx1 e1 He1. exact (HP x1 (or_intror Hx1) e1 He1).
    + destruct Hin as [->|Hin]; [rewrite Ex in Hx0; discriminate|eauto].
    + rewrite He. simpl. eauto.
  - exists e. split; auto. exact (HP x (or_introl eq_refl) e Ex).
Qed.

(** C5.  On a sentiment column whose values all lie in the declared set,
    the ordinal transform gives each value its position in the order
    neg, compound, neu, pos; on a column with a value outside the set it
    raises the encoder's unknown-category error, and so does [fit]: no
    code is produced for such a value. *)
Theorem ordinal_transform_declared_or_error col :
  (forallb declared col = true ->
     ordinal_transform sentiment_categories col = Ok (map position col))
  /\ (forallb declared col = false ->
        (exists e, ordinal_transform sentiment_categories col = Raise e
                   /\ unknown_category_error e = true)
        /\ (exists e, ordinal_fit sentiment_categories col = Raise e
                      /\ unknown_category_error e = true)).
Proof.
  split.
  - intros H. rewrite forallb_forall in H. apply mapM_map.
    intros c Hc. now apply encode_declared, H.
  - intros H.
    assert (Hex : exists c, In c col /\ declared c = false).
    { induction col as [|c col IH]; simpl in H; [discriminate|].
      destruct (declared c) eqn:E; simpl in H.
      - destruct (IH H) as (c' & Hin & Hc'). exists c'; simpl; auto.
      - exists c; simpl; auto. }
    destruct Hex as (c0 & Hin & Hc0).
    assert (Hraise : forall phase,
              exists e, mapM (encode_ordinal sentiment_categories phase) col = Raise e
                        /\ unknown_category_error e = true).
    { intros phase.
      apply (mapM_raise _ (fun e => unknown_category_error e = true)).
      - intros c _ e He. destruct (declared c) eqn:Ec.
        + rewrite (encode_declared phase c Ec) in He. discriminate.
        + destruct (encode_undeclared phase c Ec) as (e' & He' & Hu). congruence.
      - exists c0. split; auto.
        destruct (encode_undeclared phase c0 Hc0) as (e' & -> & _). reflexivity. }
    split.
    + apply Hraise.
    + unfold ordinal_fit. destruct (Hraise "fit") as (e & -> & Hu). simpl. eauto.
Qed.

Lemma hstack_shape width counts num ord n :
  List.length counts = n -> List.length num = n -> List.length ord = n ->
  Forall (fun c => List.length c = width) counts ->
  List.length (hstack counts num ord) = n
  /\ Forall (fun row => List.length row = width + 2) (hstack counts num ord).
Proof.
  revert num ord n; induction counts as [|c counts IH];
    intros [|x num] [|o ord] n Hc Hn Ho Hw; simpl in *; subst;
    try discriminate; try (split; [reflexivity|constructor]).
  inversion Hw; subst.
  destruct (IH num ord (List.length counts)) as [Hl Hf]; auto.
  split; [now rewrite Hl|]. constructor; auto.
  rewrite length_app, length_map. simpl. lia.
Qed.

Lemma select_cells X c cells :
  select X c = Ok cells -> cells = map (fun r => r c) (rows X).
Proof. unfold select. destruct (has_column X c); [|discriminate]. congruence. Qed.

Lemma select_same X1 X2 c :
  columns X1 = columns X2 ->
  map modelled_cells (rows X1) = map modelled_cells (rows X2) ->
  c = "Text" \/ c = "n_words" \/ c = "sentiment" ->
  select X1 c = select X2 c.
Proof.
  intros Hc Hr Hcol. unfold select, has_column. rewrite Hc.
  destruct (existsb _ _); auto. f_equal.
  assert (E : forall f : cell * cell * cell -> cell,
            map (fun r => f (modelled_cells r)) (rows X1)
            = map (fun r => f (modelled_cells r)) (rows X2)).
  { intros f. rewrite <- !(map_map modelled_cells f). now rewrite Hr. }
  destruct Hcol as [->|[->| ->]].
  - exact (E (fun t => fst (fst t))).
  - exact (E (fun t => snd (fst t))).
  - exact (E snd).
Qed.

(** C7.  When the preprocessor transforms a frame, the output has one row
    per input row and every row has as many entries as the fitted
    vocabulary has terms, plus two; two frames with the same labels whose
    rows agree on [Text], [n_words] and [sentiment] are transformed (and
    fitted) alike, whatever their other columns hold; and the frame that
    [main] passes on has no [Id], [Author] or [Rating] column. *)
Theorem preprocessor_shape_and_unmodelled_columns :
  (forall st X M,
      preprocessor_transform st X = Ok M ->
      List.length M = List.length (rows X)
      /\ Forall (fun row => List.length row = List.length (vocabulary_ st) + 2) M)
  /\ (forall st X1 X2,
        columns X1 = columns X2 ->
        map modelled_cells (rows X1) = map modelled_cells (rows X2) ->
        preprocessor_transform st X1 = preprocessor_transform st X2
        /\ preprocessor_fit X1 = preprocessor_fit X2)
  /\ (forall df X,
        drop df ([target] ++ drop_features) = Ok X ->
        has_column X "Id" = false /\ has_column X "Author" = false
        /\ has_column X "Rating" = false /\ rows X = rows df).
Proof.
  split; [|split].
  - intros st X M H. unfold preprocessor_transform, select_all in H.
    destruct (select X text_feature) as [text|e] eqn:Et; cbn [rbind] in H; [|discriminate].
    destruct (select X (hd "" numeric_features)) as [num|e] eqn:En;
      cbn [rbind] in H; [|discriminate].
    destruct (select X (hd "" ordinal_features)) as [ord|e] eqn:Eo;
      cbn [rbind] in H; [|discriminate].
    apply select_cells in Et, En, Eo.
    destruct (count_vectorizer_transform _ text) as [counts|e] eqn:Ec;
      cbn [rbind] in H; [|discriminate].
    destruct (scaler_transform _ _ num) as [scaled|e] eqn:Es;
      cbn [rbind] in H; [|discriminate].
    destruct (ordinal_transform _ ord) as [codes|e] eqn:Ecodes;
      cbn [rbind] in H; [|discriminate].
    inversion H; subst M. clear H.
    unfold count_vectorizer_transform in Ec.
    destruct (mapM decode text) as [strs|e] eqn:Ed; cbn [rbind] in Ec; [|discriminate].
    inversion Ec; subst counts. clear Ec.
    unfold scaler_transform in Es.
    destruct (mapM to_float num) as [xs|e] eqn:Ex; cbn [rbind] in Es; [|discriminate].
    inversion Es; subst scaled. clear Es.
    apply mapM_length in Ed, Ex, Ecodes.
    apply hstack_shape.
    + rewrite length_map, Ed, Et. now rewrite length_map.
    + rewrite length_map, Ex, En. now rewrite length_map.
    + rewrite Ecodes, Eo. now rewrite length_map.
    + apply Forall_forall. intros c Hc. apply in_map_iff in Hc as (s & <- & _).
      now rewrite length_map.
  - intros st X1 X2 Hc Hr.
    assert (Hsel : select_all X1 = select_all X2).
    { unfold select_all.
      rewrite (select_same X1 X2 text_feature), (select_same X1 X2 (hd "" numeric_features)),
        (select_same X1 X2 (hd "" ordinal_features)); auto. }
    unfold preprocessor_transform, preprocessor_fit. now rewrite Hsel.
  - intros df X H. unfold drop in H.
    destruct (filter _ _); [|discriminate]. inversion H; subst. clear H.
    unfold has_column. simpl columns. simpl rows.
    repeat split; apply not_true_is_false; intros E;
      apply existsb_exists in E as (c & Hin & Hc); apply String.eqb_eq in Hc; subst c;
      apply filter_In in Hin as [_ Hin]; vm_compute in Hin; discriminate.
Qed.

(** ** The vocabulary *)

Lemma ltb_lt a b : String.ltb a b = true -> String_as_OT.lt a b.
Proof.
  unfold String.ltb. destruct (String.compare a b) eqn:E; try discriminate.
  intros _. now apply String_as_OT.cmp_lt.
Qed.

Lemma not_ltb_gt t u :
  String.eqb t u = false -> String.ltb t u = false -> String_as_OT.lt u t.
Proof.
  unfold String.ltb. intros Hne. destruct (String.compare t u) eqn:E.
  - apply String.compare_eq_iff in E. subst. now rewrite String.eqb_refl in Hne.
  - discriminate.
  - intros _. apply String_as_OT.cmp_lt. unfold String_as_OT.cmp.
    rewrite String.compare_antisym, E. reflexivity.
Qed.

Lemma insert_term_in t v x : In x (insert_term t v) <-> x = t \/ In x v.
Proof.
  induction v as [|u v IH]; simpl.
  - intuition.
  - destruct (String.eqb t u) eqn:E.
    + apply String.eqb_eq in E. subst. simpl. intuition.
    + destruct (String.ltb t u); simpl; [intuition|]. rewrite IH. intuition.
Qed.

Lemma insert_term_sorted t v :
  StronglySorted String_as_OT.lt v -> StronglySorted String_as_OT.lt (insert_term t v).
Proof.
  induction v as [|u v IH]; simpl; intros H.
  - repeat constructor.
  - inversion H as [|? ? Hs Hf]; subst.
    destruct (String.eqb t u) eqn:E; auto.
    destruct (String.ltb t u) eqn:L.
    + apply ltb_lt in L. constructor; auto. constructor; auto.
      eapply Forall_impl; [|exact Hf]. intros a Ha.
      eapply String_as_OT.lt_trans; eauto.
    + constructor; auto. apply Forall_forall. intros a Ha.
      apply insert_term_in in Ha as [->|Ha].
      * now apply not_ltb_gt.
      * rewrite Forall_forall in Hf. auto.
Qed.

Lemma sorted_terms_nodup toks : NoDup (sorted_terms toks).
Proof.
  assert (Hs : StronglySorted String_as_OT.lt (sorted_terms toks)).
  { unfold sorted_terms. induction toks; simpl; [constructor|].
    now apply insert_term_sorted. }
  induction Hs as [|a l Hs IH Hf]; constructor; auto.
  intros Hin. rewrite Forall_forall in Hf.
  exact (String_as_OT.lt_not_eq _ _ (Hf a Hin) eq_refl).
Qed.

Lemma limit_features_length limit vocab toks :
  NoDup vocab -> List.length (limit_features limit vocab toks) <= limit.
Proof.
  intros Hnd. unfold limit_features.
  destruct (List.length vocab <=? limit) eqn:E.
  - now apply Nat.leb_le.
  - set (kept := firstn limit _).
    transitivity (List.length kept); [|apply firstn_le_length].
    apply NoDup_incl_length.
    + now apply NoDup_filter.
    + intros t Ht. apply filter_In in Ht as [_ Ht].
      unfold in_list in Ht. apply existsb_exists in Ht as (k & Hk & Ek).
      apply String.eqb_eq in Ek. now subst.
Qed.

Lemma count_in_empty vocab :
  map (count_term []) vocab = repeat 0 (List.length vocab).
Proof. induction vocab as [|t v IH]; simpl; [reflexivity|]. now rewrite IH. Qed.

(** C9.  For every vocabulary that fitting the text transform on some
    documents has produced: it has at least one and at most 20,000
    terms, and transforming the empty string succeeds and gives one row
    of that width in which every count is zero; so the preprocessor, on a
    row with an empty text, a number of words and a declared sentiment,
    gives the zero counts followed by the scaled number and the code. *)
Theorem empty_text_counts_zero docs vocabulary :
  count_vectorizer_fit max_features docs = Ok vocabulary ->
  count_vectorizer_transform vocabulary [Str ""]
  = Ok [repeat 0 (List.length vocabulary)]
  /\ 0 < List.length vocabulary
  /\ (Z.of_nat (List.length vocabulary) <= 20000)%Z
  /\ (forall mean scale r x,
        r "Text" = Str "" -> r "n_words" = Flt x ->
        declared (r "sentiment") = true ->
        preprocessor_transform
          {| vocabulary_ := vocabulary; mean_ := mean; scale_ := scale |}
          {| columns := ["Text"; "n_words"; "sentiment"]; rows := [r] |}
        = Ok [repeat (Fin 0) (List.length vocabulary)
              ++ [fdiv (fsub x mean) scale] ++ [of_nat (position (r "sentiment"))]]).
Proof.
  intros H.
  assert (Hempty : count_vectorizer_transform vocabulary [Str ""]
                   = Ok [repeat 0 (List.length vocabulary)]).
  { unfold count_vectorizer_transform. simpl. now rewrite count_in_empty. }
  split; [exact Hempty|]. split; [|split].
  - unfold count_vectorizer_fit in H.
    destruct (mapM decode docs); simpl in H; [|discriminate].
    destruct (sorted_terms _); [discriminate|].
    destruct (limit_features _ _ _); [discriminate|].
    inversion H; subst. simpl. lia.
  - unfold count_vectorizer_fit in H.
    destruct (mapM decode docs) as [strs|e]; cbn [rbind] in H; [|discriminate].
    pose proof (sorted_terms_nodup (flat_map analyze strs)) as Hnd.
    pose proof (limit_features_length max_features
                  (sorted_terms (flat_map analyze strs)) (flat_map analyze strs) Hnd) as Hl.
    destruct (sorted_terms (flat_map analyze strs)) as [|t v]; [discriminate|].
    destruct (limit_features max_features (t :: v) (flat_map analyze strs)) as [|k ks];
      [discriminate|].
    inversion H; subst. unfold max_features in Hl. lia.
  - intros mean scale r x Ht Hn Hs.
    unfold preprocessor_transform, select_all, select, has_column, text_feature.
    cbn [columns rows existsb numeric_features ordinal_features hd map].
    cbn [String.eqb Ascii.eqb Bool.eqb orb rbind vocabulary_ mean_ scale_].
    rewrite Ht, Hn, Hempty. cbn [rbind].
    unfold scaler_transform, ordinal_transform. cbn [mapM to_float rbind map].
    rewrite (encode_declared "transform" _ Hs). cbn [rbind hstack app].
    now rewrite map_repeat.
Qed.

(** * Further properties of the script *)

(** ** What a run leaves alone *)

Lemma main_files_frame train out w w' r n :
  main train out w = (w', r) ->
  node_eqb n (report_node out) = false ->
  node_eqb n (model_node out) = false ->
  lookup_file w' n = lookup_file w n.
Proof.
  intros H Hr Hm. apply main_exits, main_exit_files in H.
  unfold lookup_file. destruct r as [u|e].
  - destruct H as (g & fm & Hf & _). rewrite Hf.
    now rewrite (find_put_other _ _ _ _ Hm), (find_put_other _ _ _ _ Hr).
  - destruct H as [Hf|[g Hf]]; rewrite Hf; [reflexivity|].
    now rewrite (find_put_other _ _ _ _ Hr).
Qed.


(** X2.  [main] never creates a directory: the call of [mkdir] on line 85
    comes after the report has been written into [out], so it finds
    [out] in place.  When [out] is not a directory at the start, the run
    fails and writes no file. *)
Theorem output_directory_is_never_created train out w :
  dirs (fst (main train out w)) = dirs w
  /\ (is_dir w (parse_path out) = false ->
      snd (main train out w) <> Ok tt
      /\ files (fst (main train out w)) = files w).
Proof.
  destruct (main train out w) as [w' r] eqn:E. cbn [fst snd]. split.
  - exact (main_creates_no_directory _ _ _ _ _ E).
  - intros Hd. split; [exact (main_needs_output_directory _ _ _ _ _ Hd E)|].
    apply main_exits in E.
    destruct E as
      [ e Hl
      | X y e Hl Hs
      | X y g w' e Hl Hs Hw
      | X y g w1 e Hl Hs Hw Hf
      | X y g w1 fm e Hl Hs Hw Hf Ha
      | X y g w1 fm d dir w2 e Hl Hs Hw Hf Ha Hg Hm
      | X y g w1 fm d dir w2 w' r Hl Hs Hw Hf Ha Hg Hm Hdump ];
      try reflexivity;
      try (apply write_report_ok in Hw as (_ & _ & _ & Hdir); congruence).
    now apply write_report_raise in Hw.
Qed.

(** ** Tables the script cannot load *)

(** X3.  Line 43 drops [Rating], [Id] and [Author]: a table that lacks
    one of them makes [main] raise [KeyError] on a label that is missing,
    before anything is printed or written. *)
Theorem missing_column_is_key_error train out w df :
  read_csv train w = (w, Ok df) ->
  has_column df "Rating" && has_column df "Id" && has_column df "Author" = false ->
  exists key,
    main train out w = (w, Raise (KeyError key))
    /\ In key ["Rating"; "Id"; "Author"]
    /\ has_column df key = false.
Proof.
  intros Hr Hc.
  assert (Hd : exists key,
             drop df ["Rating"; "Id"; "Author"] = Raise (KeyError key)
             /\ In key ["Rating"; "Id"; "Author"]
             /\ has_column df key = false).
  { unfold drop. cbn [filter].
    destruct (has_column df "Rating") eqn:E1; cbn [negb].
    - destruct (has_column df "Id") eqn:E2; cbn [negb].
      + destruct (has_column df "Author") eqn:E3; cbn [negb]; [discriminate|].
        exists "Author". split; [reflexivity|]. split; [|exact E3].
        right; right; left; reflexivity.
      + exists "Id". split; [reflexivity|]. split; [|exact E2].
        right; left; reflexivity.
    - exists "Rating". split; [reflexivity|]. split; [|exact E1].
      left; reflexivity. }
  destruct Hd as (key & Hd & Hin & Hk). exists key. split; [|split; assumption].
  unfold main. unfold bind at 1. rewrite Hr. unfold bind at 1, lift at 1.
  change ([target] ++ drop_features) with ["Rating"; "Id"; "Author"].
  now rewrite Hd.
Qed.

(** ** What a successful fit says about the table *)

Lemma mapM_in {A B} (f : A -> result B) xs ys x :
  mapM f xs = Ok ys -> In x xs -> exists y, f x = Ok y /\ In y ys.
Proof.
  revert ys; induction xs as [|a xs IH]; simpl; intros ys H Hin; [tauto|].
  destruct (f a) as [b|e] eqn:Ea; [|discriminate]. cbn [rbind] in H.
  destruct (mapM f xs) as [bs|e] eqn:Em; [|discriminate]. cbn [rbind] in H.
  inversion H; subst ys. destruct Hin as [<-|Hin].
  - exists b. split; [assumption|now left].
  - destruct (IH bs eq_refl Hin) as (b' & Hb & Hin'). exists b'. split; [assumption|now right].
Qed.

Lemma mapM_total {A B} (f : A -> result B) xs :
  (forall x, In x xs -> is_ok (f x) = true) -> exists ys, mapM f xs = Ok ys.
Proof.
  induction xs as [|a xs IH]; simpl; intros H; [eauto|].
  destruct (f a) as [b|e] eqn:Ea.
  - destruct IH as [bs Hbs]; [auto|]. rewrite Hbs. cbn [rbind]. eauto.
  - specialize (H a (or_introl eq_refl)). rewrite Ea in H. discriminate.
Qed.

Lemma mapM_in_rev {A B} (f : A -> result B) xs ys y :
  mapM f xs = Ok ys -> In y ys -> exists x, In x xs /\ f x = Ok y.
Proof.
  revert ys; induction xs as [|a xs IH]; simpl; intros ys H Hin.
  - inversion H; subst. destruct Hin.
  - destruct (f a) as [b|e] eqn:Ea; [|discriminate]. cbn [rbind] in H.
    destruct (mapM f xs) as [bs|e] eqn:Em; [|discriminate]. cbn [rbind] in H.
    inversion H; subst ys. destruct Hin as [<-|Hin]; [eauto|].
    destruct (IH bs eq_refl Hin) as (x & Hx & Hfx). eauto.
Qed.

Lemma select_all_inv X text num ord :
  select_all X = Ok (text, num, ord) ->
  feature_columns X = true
  /\ text = map (fun r => r "Text") (rows X)
  /\ num = map (fun r => r "n_words") (rows X)
  /\ ord = map (fun r => r "sentiment") (rows X).
Proof.
  unfold select_all, select, feature_columns.
  unfold text_feature, numeric_features, ordinal_features. cbn [hd].
  destruct (has_column X "Text"); cbn [rbind]; [|discriminate].
  destruct (has_column X "n_words"); cbn [rbind]; [|discriminate].
  destruct (has_column X "sentiment"); cbn [rbind]; [|discriminate].
  intros H; inversion H. auto.
Qed.

Lemma select_all_columns X :
  feature_columns X = true ->
  select_all X = Ok (map (fun r => r "Text") (rows X),
                     map (fun r => r "n_words") (rows X),
                     map (fun r => r "sentiment") (rows X)).
Proof.
  unfold select_all, select, feature_columns.
  unfold text_feature, numeric_features, ordinal_features. cbn [hd].
  destruct (has_column X "Text"); [|discriminate].
  destruct (has_column X "n_words"); [|discriminate].
  destruct (has_column X "sentiment"); [|discriminate]. reflexivity.
Qed.

Lemma hstack_length counts num ord n :
  List.length counts = n -> List.length num = n -> List.length ord = n ->
  List.length (hstack counts num ord) = n.
Proof.
  revert num ord n; induction counts as [|c counts IH];
    intros [|x num] [|o ord] n; simpl; intros H1 H2 H3; try congruence.
  destruct n as [|n]; [discriminate|]. f_equal. apply IH; congruence.
Qed.

Lemma hstack_in counts num ord row :
  In row (hstack counts num ord) ->
  exists c x o, In x num /\ row = map of_nat c ++ [x] ++ [of_nat o].
Proof.
  revert num ord; induction counts as [|c counts IH];
    intros [|x num] [|o ord]; simpl; try tauto.
  intros [<-|Hin].
  - exists c, x, o. split; [now left|reflexivity].
  - destruct (IH _ _ Hin) as (c' & x' & o' & Hx & Hr).
    exists c', x', o'. split; [now right|assumption].
Qed.

Lemma hstack_num counts num ord x :
  List.length counts = List.length num -> List.length ord = List.length num ->
  In x num ->
  exists c o, In (map of_nat c ++ [x] ++ [of_nat o]) (hstack counts num ord).
Proof.
  revert num ord; induction counts as [|c counts IH];
    intros [|x0 num] [|o ord]; simpl; intros H1 H2 Hin; try tauto; try discriminate.
  destruct Hin as [->|Hin].
  - exists c, o. now left.
  - destruct (IH num ord) as (c' & o' & H); [congruence|congruence|assumption|].
    exists c', o'. now right.
Qed.

Lemma finite_ok x : is_ok (finite x) = negb (isnan x).
Proof. now destruct x. Qed.

(** [check_array] accepts a matrix exactly when no entry is NaN. *)
Lemma check_array_entries M Mq :
  check_array M = Ok Mq ->
  forall row x, In row M -> In x row -> isnan x = false.
Proof.
  intros H row x Hrow Hx. unfold check_array in H.
  destruct (mapM_in _ _ _ _ H Hrow) as (rq & Hr & _).
  destruct (mapM_in _ _ _ _ Hr Hx) as (q & Hq & _).
  destruct x; [discriminate|reflexivity].
Qed.

Lemma check_array_ok M :
  (forall row x, In row M -> In x row -> isnan x = false) ->
  exists Mq, check_array M = Ok Mq /\ List.length Mq = List.length M.
Proof.
  intros H. destruct (mapM_total (mapM finite) M) as [Mq HMq].
  - intros row Hrow. destruct (mapM_total finite row) as [rq Hrq].
    + intros x Hx. rewrite finite_ok, (H row x Hrow Hx). reflexivity.
    + now rewrite Hrq.
  - exists Mq. split; [exact HMq|]. exact (mapM_length _ _ _ HMq).
Qed.

Lemma scaled_finite x mean scale :
  isnan (fdiv (fsub x mean) scale) = false ->
  exists q m s, x = Fin q /\ mean = Fin m /\ scale = Fin s /\ Qis_zero s = false.
Proof.
  destruct x as [|q], mean as [|m], scale as [|s]; simpl; try discriminate.
  destruct (Qis_zero s) eqn:E; [discriminate|]. intros _. eauto 7.
Qed.

Lemma decode_ok c : is_ok (decode c) = is_text c.
Proof. destruct c as [s|[|q]]; reflexivity. Qed.

Lemma encode_ok phase c :
  is_ok (encode_ordinal sentiment_categories phase c) = declared c.
Proof.
  destruct (declared c) eqn:E.
  - now rewrite (encode_declared phase c E).
  - destruct (encode_undeclared phase c E) as (e & He & _). now rewrite He.
Qed.

Lemma target_ok c : is_ok (try x <- to_float c; finite x) = is_number c.
Proof. destruct c as [s|[|q]]; reflexivity. Qed.

(** What [pipeline_fit] has checked when it returns: the three columns
    are there, every row is valid, every target is a number, and the
    scaler has learned a mean and a non-zero scale. *)
Lemma pipeline_fit_inv p X y f :
  pipeline_fit p X y = Ok f ->
  exists st coef intercept,
    fitted_ f = Some {| prepro_ := st; coef_ := coef; intercept_ := intercept |}
    /\ feature_columns X = true
    /\ forallb valid_row (rows X) = true
    /\ forallb is_number y = true
    /\ List.length y = List.length (rows X)
    /\ rows X <> []
    /\ existsb has_term (rows X) = true
    /\ exists m s, mean_ st = Fin m /\ scale_ st = Fin s /\ Qis_zero s = false.
Proof.
  unfold pipeline_fit, preprocessor_fit_transform.
  destruct (preprocessor_fit X) as [st|e] eqn:Efit; cbn [rbind]; [|discriminate].
  destruct (preprocessor_transform st X) as [Xt|e] eqn:Etr; cbn [rbind fst snd];
    [|discriminate].
  destruct (ridge_fit (ridge__alpha p) Xt y) as [ci|e] eqn:Er; cbn [rbind];
    [|discriminate].
  intros H; inversion H; subst f; clear H.
  exists st, (fst ci), (snd ci). split; [reflexivity|].
  unfold preprocessor_fit in Efit.
  destruct (select_all X) as [[[text num] ord]|e] eqn:Es; cbn [rbind] in Efit;
    [|discriminate].
  destruct (select_all_inv _ _ _ _ Es) as (Hcols & Ht & Hn & Ho).
  destruct (count_vectorizer_fit max_features text) as [vocab|e] eqn:Ev;
    cbn [rbind] in Efit; [|discriminate].
  destruct (scaler_fit num) as [ms|e] eqn:Esc; cbn [rbind] in Efit; [|discriminate].
  destruct (ordinal_fit sentiment_categories ord) as [u|e] eqn:Eo;
    cbn [rbind] in Efit; [|discriminate].
  inversion Efit; subst st; clear Efit.
  unfold preprocessor_transform in Etr. rewrite Es in Etr.
  cbn [rbind vocabulary_ mean_ scale_] in Etr.
  destruct (count_vectorizer_transform vocab text) as [counts|e] eqn:Ect;
    cbn [rbind] in Etr; [|discriminate].
  destruct (scaler_transform (fst ms) (snd ms) num) as [scaled|e] eqn:Est;
    cbn [rbind] in Etr; [|discriminate].
  destruct (ordinal_transform sentiment_categories ord) as [codes|e] eqn:Eot;
    cbn [rbind] in Etr; [|discriminate].
  inversion Etr; subst Xt; clear Etr.
  unfold ridge_fit in Er.
  destruct (check_array _) as [Xq|e] eqn:Eca; cbn [rbind] in Er; [|discriminate].
  destruct (check_target y) as [yq|e] eqn:Ecy; cbn [rbind] in Er; [|discriminate].
  destruct (List.length Xq =? List.length yq) eqn:El; [|discriminate].
  apply Nat.eqb_eq in El.
  (* the blocks and their lengths *)
  unfold count_vectorizer_fit in Ev.
  destruct (mapM decode text) as [strs|e] eqn:Ed; cbn [rbind] in Ev; [|discriminate].
  unfold count_vectorizer_transform in Ect. rewrite Ed in Ect. cbn [rbind] in Ect.
  inversion Ect; subst counts; clear Ect.
  unfold scaler_transform in Est.
  destruct (mapM to_float num) as [xs|e] eqn:Ef; cbn [rbind] in Est; [|discriminate].
  inversion Est; subst scaled; clear Est.
  unfold ordinal_fit in Eo.
  destruct (mapM (encode_ordinal sentiment_categories "fit") ord) as [cs|e] eqn:Eof;
    [|discriminate].
  unfold ordinal_transform in Eot.
  assert (Lt : List.length text = List.length (rows X)) by (subst text; apply length_map).
  assert (Ln : List.length num = List.length (rows X)) by (subst num; apply length_map).
  assert (Lo : List.length ord = List.length (rows X)) by (subst ord; apply length_map).
  assert (Lc : List.length (map (fun s => map (count_term (analyze s)) vocab) strs)
               = List.length (rows X)).
  { rewrite length_map, (mapM_length _ _ _ Ed). exact Lt. }
  assert (Ls : List.length (map (fun x => fdiv (fsub x (fst ms)) (snd ms)) xs)
               = List.length (rows X)).
  { rewrite length_map, (mapM_length _ _ _ Ef). exact Ln. }
  assert (Ld : List.length codes = List.length (rows X)).
  { rewrite (mapM_length _ _ _ Eot). exact Lo. }
  (* every scaled entry is a number *)
  assert (Hscaled : forall x, In x xs ->
                     isnan (fdiv (fsub x (fst ms)) (snd ms)) = false).
  { intros x Hx.
    destruct (hstack_num (map (fun s => map (count_term (analyze s)) vocab) strs)
                (map (fun x => fdiv (fsub x (fst ms)) (snd ms)) xs) codes
                (fdiv (fsub x (fst ms)) (snd ms))) as (c & o & Hrow).
    - congruence.
    - congruence.
    - apply in_map_iff. eauto.
    - apply (check_array_entries _ _ Eca _ _ Hrow).
      apply in_or_app. right. now left. }
  assert (Hne : rows X <> []).
  { intros Hnil. rewrite Hnil in Ht. subst text. simpl in Ed.
    inversion Ed; subst strs. simpl in Ev. discriminate. }
  split; [exact Hcols|]. split; [|split; [|split; [|split; [exact Hne|split]]]].
  - apply forallb_forall. intros r Hr. unfold valid_row.
    assert (H1 : is_text (r "Text") = true).
    { destruct (mapM_in decode text strs (r "Text") Ed) as (s & Hs & _).
      - subst text. apply in_map_iff. eauto.
      - rewrite <- decode_ok, Hs. reflexivity. }
    assert (H2 : is_number (r "n_words") = true).
    { destruct (mapM_in to_float num xs (r "n_words") Ef) as (x & Hx & Hin).
      - subst num. apply in_map_iff. eauto.
      - destruct (scaled_finite _ _ _ (Hscaled x Hin)) as (q & _ & _ & -> & _).
        destruct (r "n_words") as [s|x']; [discriminate|].
        simpl in Hx. inversion Hx. reflexivity. }
    assert (H3 : declared (r "sentiment") = true).
    { destruct (mapM_in _ ord cs (r "sentiment") Eof) as (i & Hi & _).
      - subst ord. apply in_map_iff. eauto.
      - rewrite <- (encode_ok "fit"), Hi. reflexivity. }
    now rewrite H1, H2, H3.
  - apply forallb_forall. intros c Hc.
    destruct (mapM_in _ y yq c Ecy Hc) as (q & Hq & _).
    rewrite <- target_ok, Hq. reflexivity.
  - rewrite <- (mapM_length _ _ _ Ecy), <- El, (mapM_length _ _ _ Eca).
    apply hstack_length; assumption.
  - assert (Htok : exists s, In s strs /\ analyze s <> []).
    { clear - Ev. induction strs as [|s strs IH]; [discriminate|].
      destruct (analyze s) as [|t ts] eqn:Ea.
      - cbn [flat_map] in Ev. rewrite Ea in Ev. cbn [app] in Ev.
        destruct (IH Ev) as (s' & Hs' & Hne'). exists s'. split; [now right|exact Hne'].
      - exists s. split; [now left|]. rewrite Ea. discriminate. }
    destruct Htok as (s & Hs & Hs').
    destruct (mapM_in_rev _ _ _ _ Ed Hs) as (c & Hc & Hdec).
    assert (c = Str s) by (destruct c as [?|[|?]]; simpl in Hdec; congruence). subst c.
    rewrite Ht in Hc. apply in_map_iff in Hc as (r & Hr & Hin).
    apply existsb_exists. exists r. split; [exact Hin|].
    unfold has_term. rewrite Hr. destruct (analyze s); [congruence|reflexivity].
  - destruct (rows X) as [|r rest] eqn:Erows; [congruence|].
    destruct (mapM_in to_float num xs (r "n_words") Ef) as (x & Hx & Hin).
    { subst num. now left. }
    destruct (scaled_finite _ _ _ (Hscaled x Hin)) as (q & m & s & _ & Hm & Hs & Hz).
    exists m, s. auto.
Qed.

(** The transform of a frame of valid rows, by a preprocessor whose
    scaler has a mean and a non-zero scale, succeeds and has no NaN. *)
Lemma preprocessor_transform_valid st X m s :
  feature_columns X = true ->
  forallb valid_row (rows X) = true ->
  mean_ st = Fin m -> scale_ st = Fin s -> Qis_zero s = false ->
  exists Xt,
    preprocessor_transform st X = Ok Xt
    /\ List.length Xt = List.length (rows X)
    /\ forall row x, In row Xt -> In x row -> isnan x = false.
Proof.
  intros Hcols Hrows Hm Hs Hz. unfold preprocessor_transform.
  rewrite (select_all_columns _ Hcols). cbn [rbind].
  assert (Hvalid : forall r, In r (rows X) ->
             is_text (r "Text") = true /\ is_number (r "n_words") = true
             /\ declared (r "sentiment") = true).
  { intros r Hr. pose proof (proj1 (forallb_forall _ _) Hrows r Hr) as H.
    unfold valid_row in H. apply andb_prop in H as [H H3].
    apply andb_prop in H as [H1 H2]. auto. }
  destruct (mapM_total decode (map (fun r => r "Text") (rows X))) as [strs Hd].
  { intros c Hc. apply in_map_iff in Hc as (r & <- & Hr).
    rewrite decode_ok. apply (Hvalid r Hr). }
  unfold count_vectorizer_transform. rewrite Hd. cbn [rbind].
  destruct (mapM_total to_float (map (fun r => r "n_words") (rows X))) as [xs Hx].
  { intros c Hc. apply in_map_iff in Hc as (r & <- & Hr).
    destruct (Hvalid r Hr) as (_ & H2 & _).
    destruct (r "n_words"); [discriminate|reflexivity]. }
  unfold scaler_transform. rewrite Hx. cbn [rbind].
  destruct (mapM_total (encode_ordinal sentiment_categories "transform")
              (map (fun r => r "sentiment") (rows X))) as [codes Hc].
  { intros c Hc. apply in_map_iff in Hc as (r & <- & Hr).
    rewrite encode_ok. apply (Hvalid r Hr). }
  unfold ordinal_transform. rewrite Hc. cbn [rbind].
  eexists. split; [reflexivity|]. split.
  - apply hstack_length.
    + now rewrite length_map, (mapM_length _ _ _ Hd), length_map.
    + now rewrite length_map, (mapM_length _ _ _ Hx), length_map.
    + now rewrite (mapM_length _ _ _ Hc), length_map.
  - intros row x Hrow Hin.
    destruct (hstack_in _ _ _ _ Hrow) as (c & x0 & o & Hx0 & ->).
    apply in_app_or in Hin as [Hin|[<-|[<-|[]]]].
    + apply in_map_iff in Hin as (k & <- & _). reflexivity.
    + apply in_map_iff in Hx0 as (x1 & <- & Hx1).
      assert (Hfin : exists q, x1 = Fin q).
      { clear - Hx Hx1 Hvalid.
        revert xs Hx Hx1. induction (rows X) as [|r rs IH]; simpl; intros xs Hx Hx1.
        - inversion Hx; subst. destruct Hx1.
        - destruct (Hvalid r (or_introl eq_refl)) as (_ & H2 & _).
          destruct (r "n_words") as [t|[|q]]; try discriminate.
          cbn [to_float rbind] in Hx.
          destruct (mapM to_float (map (fun r => r "n_words") rs)) as [xs'|e] eqn:E;
            [|discriminate].
          cbn [rbind] in Hx. inversion Hx; subst xs.
          destruct Hx1 as [<-|Hx1]; [eauto|].
          apply (IH (fun r' Hr' => Hvalid r' (or_intror Hr')) xs' eq_refl Hx1). }
      destruct Hfin as [q ->]. rewrite Hm, Hs. simpl. now rewrite Hz.
    + reflexivity.
Qed.

(** ** Tables the script cannot train on *)

Lemma main_search_fails train out w X y e :
  loaded train w = Ok (X, y) ->
  search X y = Raise e ->
  main train out w = (after_search_msg w, Raise e).
Proof.
  intros Hl Hs. destruct (main train out w) as [w' r] eqn:E.
  apply main_exits in E.
  destruct E as
    [ e' Hl'
    | X' y' e' Hl' Hs'
    | X' y' g' w' e' Hl' Hs' Hw
    | X' y' g' w1' e' Hl' Hs' Hw Hf
    | X' y' g' w1' fm e' Hl' Hs' Hw Hf Ha'
    | X' y' g' w1' fm d' dir' w2 e' Hl' Hs' Hw Hf Ha' Hg' Hm
    | X' y' g' w1' fm d' dir' w2 w' r Hl' Hs' Hw Hf Ha' Hg' Hm Hdump ];
    rewrite Hl in Hl'; try discriminate; inversion Hl'; subst X' y';
    rewrite Hs in Hs'; try discriminate.
  now inversion Hs'.
Qed.

(** X4.  A table with a row the pipeline cannot take (a [Text] cell that
    is not a string, such as an empty field; an [n_words] cell that is not
    a number; a [sentiment] outside the four declared labels) or with a
    [Rating] that is not a number makes the run fail: the folds may be
    scored NaN, but the refit on the whole table raises.  The run stops
    in the search, with no file written. *)
Theorem invalid_table_fails_before_any_artifact train out w X y :
  loaded train w = Ok (X, y) ->
  forallb valid_row (rows X) && forallb is_number y = false ->
  exists w' e,
    main train out w = (w', Raise e)
    /\ files w' = files w
    /\ dirs w' = dirs w.
Proof.
  intros Hl Hbad.
  assert (Hfit : is_ok (pipeline_fit ml_pipe X y) = false).
  { destruct (pipeline_fit ml_pipe X y) as [f|e] eqn:E; [|reflexivity].
    apply pipeline_fit_inv in E as (_ & _ & _ & _ & _ & H1 & H2 & _).
    rewrite H1, H2 in Hbad. discriminate. }
  apply search_needs_whole_fit in Hfit.
  destruct (search X y) as [g|e] eqn:Es; [discriminate|].
  exists (after_search_msg w), e.
  split; [exact (main_search_fails _ _ _ _ _ _ Hl Es)|]. split; reflexivity.
Qed.

(** X5.  The search splits the rows into five folds (the default of
    [GridSearchCV] for [cv]): on a table with fewer than five rows [main]
    raises [ValueError] from the split, with no file written. *)
Theorem fewer_rows_than_folds train out w X y :
  loaded train w = Ok (X, y) ->
  List.length (rows X) < 5 ->
  exists w' msg,
    main train out w = (w', Raise (ValueError msg))
    /\ files w' = files w
    /\ dirs w' = dirs w.
Proof.
  intros Hl Hn.
  assert (Hs : exists msg, search X y = Raise (ValueError msg)).
  { unfold search, grid_search_fit, kfold_split.
    apply Nat.ltb_lt in Hn. rewrite Hn. cbn [rbind]. eauto. }
  destruct Hs as [msg Hs]. exists (after_search_msg w), msg.
  split; [exact (main_search_fails _ _ _ _ _ _ Hl Hs)|]. split; reflexivity.
Qed.

(** ** The fitted pipeline *)

(** A fitted pipeline predicts on every frame of valid rows. *)
Lemma pipeline_predict_total p X y f X' :
  pipeline_fit p X y = Ok f ->
  feature_columns X' = true ->
  forallb valid_row (rows X') = true ->
  exists preds,
    pipeline_predict f X' = Ok preds
    /\ List.length preds = List.length (rows X').
Proof.
  intros Hfit Hcols Hrows.
  apply pipeline_fit_inv in Hfit
    as (st & coef & icpt & Hf & _ & _ & _ & _ & _ & _ & m & s & Hm & Hs & Hz).
  destruct (preprocessor_transform_valid st X' m s Hcols Hrows Hm Hs Hz)
    as (Xt & Ht & Hlen & Hfin).
  destruct (check_array_ok Xt Hfin) as (Xq & Hq & Hlq).
  unfold pipeline_predict. rewrite Hf. cbn [prepro_ coef_ intercept_].
  rewrite Ht. cbn [rbind]. unfold ridge_predict. rewrite Hq. cbn [rbind].
  eexists. split; [reflexivity|]. rewrite length_map. congruence.
Qed.

(** X6.  A pipeline that [fit] has returned predicts on every frame that
    has the three feature columns and valid rows, one rating per row:
    the vocabulary, the mean and the non-zero scale learned in training
    are enough, and no cell of such a frame can make the transform
    raise or produce NaN. *)
Theorem fitted_pipeline_predicts p X y f X' :
  pipeline_fit p X y = Ok f ->
  feature_columns X' = true ->
  forallb valid_row (rows X') = true ->
  exists preds,
    pipeline_predict f X' = Ok preds
    /\ List.length preds = List.length (rows X').
Proof. exact (pipeline_predict_total p X y f X'). Qed.

(** ** A run from the command line *)

Lemma loaded_frame train w1 w2 :
  dirs w1 = dirs w2 -> files w1 = files w2 -> loaded train w1 = loaded train w2.
Proof.
  intros Hd Hf. unfold loaded, read_csv, lookup_file.
  rewrite (is_dir_dirs w1 w2 _ Hd), Hf.
  destruct (is_dir w2 (parse_path train)); [reflexivity|].
  destruct (option_map snd _) as [[]|]; reflexivity.
Qed.

(** The last message of a successful run names the directory that
    [arguments] gives. *)
Lemma main_ok_console train out w w' d dir :
  main train out w = (w', Ok tt) ->
  arguments w = Some d ->
  dict_getitem d "<out>" = Ok dir ->
  In (Echo ("Writing model to directory: " ++ dir)%string) (stdout w').
Proof.
  intros H Ha Hg. apply main_exits in H.
  inversion H as
    [ | | | |
    | | X' y' g' w1 fm d' dir' w2 w0 r Hl' Hs' Hw Hf Ha' Hg' Hm Hd ]; subst.
  pose proof (write_report_ok _ _ _ _ Hw) as (_ & Hdirs & Hargs & Hdir).
  rewrite Hargs, Ha in Ha'. inversion Ha'; subst d'.
  rewrite Hg in Hg'. inversion Hg'; subst dir'.
  rewrite mkdir_existing in Hm
    by (rewrite <- Hdir; apply is_dir_dirs; exact Hdirs).
  inversion Hm; subst w2.
  apply write_file_ok in Hd as (_ & _ & _ & Hout' & _).
  rewrite Hout'. cbn [print fst stdout]. apply in_or_app. right. now left.
Qed.

(** X7.  Started from the command line with two positional arguments,
    the script binds [arguments] before [main] runs, so line 84 finds
    [arguments["<out>"]], and it is [out].  When the table loads, the
    search succeeds, [out] is a directory and neither artifact path is
    one, the run succeeds: both artifacts are in place, and the message
    of line 84 names [out]. *)
Theorem entry_point_saves_model train out w X y g :
  is_option train = false -> is_option out = false ->
  loaded train w = Ok (X, y) ->
  search X y = Ok g ->
  is_dir w (parse_path out) = true ->
  is_dir w (report_node out) = false ->
  is_dir w (model_node out) = false ->
  exists w',
    entry_point [train; out] w = (w', Ok tt)
    /\ lookup_file w' (report_node out) = Some (Report (report_of g))
    /\ lookup_file w' (model_node out) = Some (Pickle (best_estimator_ g))
    /\ In (Echo ("Writing model to directory: " ++ out)%string) (stdout w').
Proof.
  intros Ht Ho Hl Hs Hd Hr Hm.
  destruct (entry_point_runs_main train out w Ht Ho) as (d & Hg & Hrun).
  set (w0 := {| dirs := dirs w; files := files w;
                stdout := stdout w
                          ++ [Echo ("Constructing model from train data " ++ train)%string];
                arguments := Some d |}) in *.
  assert (Hl0 : loaded train w0 = Ok (X, y))
    by (rewrite <- Hl; apply loaded_frame; reflexivity).
  destruct (main_completes train out w0 X y g d out Hl0 Hs Hd Hr Hm eq_refl Hg)
    as (w' & Hmain).
  exists w'. rewrite Hrun. split; [exact Hmain|].
  destruct (main_ok_inv _ _ _ _ Hmain) as (X' & y' & g' & Hl' & Hs' & Hrep & Hmod).
  rewrite Hl0 in Hl'. inversion Hl'; subst X' y'.
  rewrite Hs in Hs'. inversion Hs'; subst g'.
  split; [exact Hrep|]. split; [exact Hmod|].
  exact (main_ok_console train out w0 w' d out Hmain eq_refl Hg).
Qed.

(** ** Where the artifacts go *)

Lemma parse_path_trailing_slash out :
  String.eqb out "" = false -> parse_path (out ++ "/") = parse_path out.
Proof.
  intros Hne. destruct out as [|a s]; [discriminate|]. unfold parse_path. f_equal.
  - apply prefix_slash_app.
  - rewrite (split_slash_app [] (String a s) ""), filter_app. cbn [split_slash rev].
    cbn [string_of_list_ascii filter keep_component]. apply app_nil_r.
Qed.

(** X8.  [os.path.join] on lines 77 and 86 puts both artifacts directly
    inside the directory that [out] names, under two different names,
    whatever the form of [out] (relative or absolute, empty, with [.] or
    doubled slashes); and a trailing slash on [out] changes neither
    path. *)
Theorem artifacts_are_siblings_inside_out out :
  parent (report_node out) = parse_path out
  /\ parent (model_node out) = parse_path out
  /\ report_node out <> model_node out
  /\ (String.eqb out "" = false ->
      report_node (out ++ "/") = report_node out
      /\ model_node (out ++ "/") = model_node out).
Proof.
  split; [apply parent_report|]. split; [apply parent_model|]. split.
  - intros H. pose proof (report_not_model out) as D.
    rewrite H, node_eqb_refl in D. discriminate.
  - intros Hne. rewrite !report_node_eq, !model_node_eq.
    now rewrite (parse_path_trailing_slash out Hne).
Qed.

(** ** The report and the printed score *)

Lemma descending_head {A} (key : A -> float) r rest b :
  descending key (r :: rest) -> In b (r :: rest) -> fle (key b) (key r) = true.
Proof.
  intros H [<-|Hin]; [apply fle_refl|].
  inversion H as [|? ? _ Hall]; subst.
  exact (proj1 (Forall_forall _ _) Hall b Hin).
Qed.

(** X9.  The score printed on line 72 is the mean held-out score in the
    first row of the report written on line 77, and that row has rank
    one: the report starts with a candidate that ties the selected one. *)
Theorem report_starts_with_best_score X y g :
  search X y = Ok g ->
  exists r rest,
    report_of g = r :: rest
    /\ fle (mean_test_score r) (best_score_ g) = true
    /\ fle (best_score_ g) (mean_test_score r) = true
    /\ rank_test_score r = 1.
Proof.
  intros Hs.
  destruct (search_inv _ _ _ Hs)
    as (splits & out & _ & _ & _ & Hlen & _ & _ & Hres & Hbi & Hlt & Hbs & _ & _).
  pose proof (sort_values_perm mean_test_score (cv_results_ g)) as Hperm.
  pose proof (sort_values_descending mean_test_score (cv_results_ g)) as Hdesc.
  fold (report_of g) in Hperm, Hdesc.
  assert (Hmeans : forall b, In b (cv_results_ g) ->
             exists j, j < 10 /\ mean_test_score b = nth j (map mean_test out) NaN
                       /\ rank_test_score b
                          = rank_of (map mean_test out) (mean_test_score b)).
  { intros b Hb. rewrite Hres in Hb.
    destruct (In_nth _ _ b Hb) as (j & Hj & Hnth).
    rewrite make_rows_length, Hlen in Hj. exists j. split; [exact Hj|].
    assert (Hj' : j < List.length out) by (rewrite Hlen; exact Hj).
    destruct (nth_make_rows out j b Hj') as (Hm & _ & _ & Hr & _).
    rewrite Hnth in Hm, Hr. split; [exact Hm|]. now rewrite Hr, Hm. }
  assert (Hne : map mean_test out <> []).
  { destruct out; [discriminate|]. discriminate. }
  destruct (best_of_spec _ Hne) as (_ & Hmax & _).
  rewrite length_map, Hlen in Hmax. rewrite <- Hbi, <- Hbs in Hmax.
  destruct (report_of g) as [|r rest] eqn:Er.
  { apply Permutation_length in Hperm. rewrite Hres, make_rows_length, Hlen in Hperm.
    discriminate. }
  exists r, rest. split; [reflexivity|].
  assert (Hr : In r (cv_results_ g))
    by (apply (Permutation_in _ (Permutation_sym Hperm)); now left).
  destruct (Hmeans r Hr) as (j & Hj & Hm & Hrank).
  split; [rewrite Hm; now apply Hmax|].
  assert (Hall : forall m, In m (map mean_test out) -> fle m (mean_test_score r) = true).
  { intros m Hm'. destruct (In_nth _ _ NaN Hm') as (i & Hi & <-).
    rewrite length_map, Hlen in Hi.
    assert (Hi' : i < List.length out) by (rewrite Hlen; exact Hi).
    destruct (nth_make_rows out i r Hi') as (Hmi & _).
    rewrite <- Hmi. apply (descending_head mean_test_score r rest); [exact Hdesc|].
    apply (Permutation_in _ Hperm). rewrite Hres. apply nth_In.
    now rewrite make_rows_length. }
  split.
  - apply Hall. rewrite Hbs. apply nth_In. now rewrite length_map, Hlen.
  - rewrite Hrank. unfold rank_of. f_equal.
    replace (filter _ _) with (@nil float); [reflexivity|].
    symmetry. apply (proj1 (List.length_zero_iff_nil _)).
    pose proof (filter_length_le (fun m' => flt (mean_test_score r) m')
                  (fun _ => false) (map mean_test out)) as Hle.
    rewrite (proj2 (List.length_zero_iff_nil
                      (filter (fun _ : float => false) (map mean_test out)))) in Hle.
    + apply Nat.le_0_r, Hle. intros m Hm' Hflt. unfold flt in Hflt.
      now rewrite (Hall m Hm') in Hflt.
    + clear. induction (map mean_test out); simpl; auto.
Qed.

(** ** The vocabulary *)











(** ** The folds *)

Lemma fold_sizes_sum q r len : forall s,
  list_sum (map (fun i => q + (if i <? r then 1 else 0)) (seq s len))
  = len * q + (Nat.min (s + len) r - Nat.min s r).
Proof.
  induction len as [|len IH]; intros s.
  - simpl. rewrite Nat.add_0_r. lia.
  - cbn [seq map]. change (list_sum (?a :: ?l)) with (a + list_sum l).
    rewrite IH. destruct (s <? r) eqn:E.
    + apply Nat.ltb_lt in E. lia.
    + apply Nat.ltb_ge in E. lia.
Qed.

Lemma test_folds_concat sizes : forall start,
  List.concat (test_folds start sizes) = seq start (list_sum sizes).
Proof.
  induction sizes as [|s sizes IH]; intros start.
  - reflexivity.
  - cbn [test_folds List.concat]. change (list_sum (s :: sizes)) with (s + list_sum sizes).
    now rewrite IH, seq_app.
Qed.

Lemma test_folds_in sizes test : forall start,
  In test (test_folds start sizes) ->
  exists a s, In s sizes /\ test = seq a s /\ start <= a
              /\ a + s <= start + list_sum sizes.
Proof.
  induction sizes as [|s sizes IH]; intros start; cbn [test_folds].
  - intros [].
  - change (list_sum (s :: sizes)) with (s + list_sum sizes). intros [<-|Hin].
    + exists start, s. split; [now left|]. split; [reflexivity|]. lia.
    + destruct (IH _ Hin) as (a & s' & Hs & Ht & H1 & H2).
      exists a, s'. split; [now right|]. split; [exact Ht|]. lia.
Qed.

Lemma existsb_eqb_in i l : existsb (Nat.eqb i) l = true <-> In i l.
Proof.
  rewrite existsb_exists. split.
  - intros (j & Hj & E). apply Nat.eqb_eq in E. now subst.
  - intros H. exists i. split; [exact H|apply Nat.eqb_refl].
Qed.

(** The parts of a [k]-fold split. *)
Lemma kfold_split_inv k n splits :
  0 < k ->
  kfold_split k n = Ok splits ->
  List.length splits = k
  /\ List.concat (map snd splits) = seq 0 n
  /\ forall train test, In (train, test) splits ->
       n / k <= List.length test <= n / k + 1
       /\ (forall i, In i test -> i < n)
       /\ (forall i, In i train <-> i < n /\ ~ In i test).
Proof.
  intros Hk H. split; [exact (kfold_split_length _ _ _ H)|].
  unfold kfold_split in H. destruct (n <? k) eqn:E; [discriminate|].
  inversion H; subst splits; clear H.
  assert (Hsum : list_sum (fold_sizes n k) = n).
  { unfold fold_sizes. rewrite fold_sizes_sum. cbn [Nat.add Nat.min].
    pose proof (Nat.mod_upper_bound n k ltac:(lia)) as Hm.
    pose proof (Nat.div_mod_eq n k) as Hd. lia. }
  split.
  - rewrite map_map. cbn [snd]. rewrite map_id, test_folds_concat. now rewrite Hsum.
  - intros train test Hin. apply in_map_iff in Hin as (t & Heq & Ht).
    inversion Heq; subst train test; clear Heq.
    destruct (test_folds_in _ _ _ Ht) as (a & s & Hs & -> & _ & Hb).
    rewrite Hsum in Hb. cbn [Nat.add] in Hb. split; [|split].
    + rewrite length_seq. unfold fold_sizes in Hs.
      apply in_map_iff in Hs as (i & <- & _). destruct (i <? n mod k); lia.
    + intros i Hi. apply in_seq in Hi. lia.
    + intros i. rewrite filter_In, in_seq, negb_true_iff.
      rewrite <- not_true_iff_false, existsb_eqb_in. intuition lia.
Qed.

(** X11.  The five-fold split behind the search (and any [k]-fold split
    of [n >= k] rows): the held-out parts, in order, are consecutive
    blocks that together list every row exactly once; each has
    [n / k] or [n / k + 1] rows; and the training part of a fold is
    exactly the rows that its held-out part leaves. *)
Theorem kfold_holds_out_every_row_once k n splits :
  0 < k ->
  kfold_split k n = Ok splits ->
  List.length splits = k
  /\ List.concat (map snd splits) = seq 0 n
  /\ forall train test, In (train, test) splits ->
       n / k <= List.length test <= n / k + 1
       /\ (forall i, In i test -> i < n)
       /\ (forall i, In i train <-> i < n /\ ~ In i test).
Proof. exact (kfold_split_inv k n splits). Qed.

(** ** Running the script again *)

Lemma write_file_ok_target path c w w' :
  write_file path c w = (w', Ok tt) -> is_dir w (parse_path path) = false.
Proof.
  unfold write_file. destruct (is_dir w (parse_path path)); [discriminate|reflexivity].
Qed.

Lemma loaded_same train w1 w2 :
  is_dir w1 (parse_path train) = is_dir w2 (parse_path train) ->
  lookup_file w1 (parse_path train) = lookup_file w2 (parse_path train) ->
  loaded train w1 = loaded train w2.
Proof.
  intros Hd Hf. unfold loaded, read_csv. rewrite Hd, Hf.
  destruct (is_dir w2 (parse_path train)); [reflexivity|].
  destruct (lookup_file w2 (parse_path train)) as [[]|]; reflexivity.
Qed.

(** What held at the start of a run that succeeds, and what it keeps. *)
Lemma main_ok_state train out w w' :
  main train out w = (w', Ok tt) ->
  arguments w' = arguments w
  /\ (exists d dir, arguments w = Some d /\ dict_getitem d "<out>" = Ok dir)
  /\ is_dir w (parse_path out) = true
  /\ is_dir w (report_node out) = false
  /\ is_dir w (model_node out) = false.
Proof.
  intros H. apply main_exits in H.
  inversion H as
    [ | | | |
    | | X y g w1 fm d dir w2 w0 r Hl Hs Hw Hf Ha Hg Hm Hd ]; subst.
  pose proof (write_report_ok _ _ _ _ Hw) as (_ & Hdirs & Hargs & Hdir).
  unfold write_report in Hw. apply write_file_ok_target in Hw.
  rewrite mkdir_existing in Hm
    by (rewrite <- Hdir; apply is_dir_dirs; exact Hdirs).
  inversion Hm; subst w2.
  pose proof (write_file_ok_target _ _ _ _ Hd) as Hmod.
  apply write_file_ok in Hd as (_ & _ & _ & _ & Hargs').
  split; [rewrite Hargs'; cbn [print fst arguments]; exact Hargs|].
  split; [exists d, dir; split; [congruence|exact Hg]|].
  split; [exact Hdir|]. split.
  - rewrite <- Hw. apply is_dir_dirs. reflexivity.
  - rewrite <- Hmod. apply is_dir_dirs. cbn [print fst dirs]. now rewrite Hdirs.
Qed.

(** X12.  A run that has succeeded can be repeated: provided the
    training file is not at one of the artifact paths, a second run in the
    world the first one left succeeds too, creates no directory, leaves
    every path other than the two artifact paths as the first run left
    it, and has both artifacts in place.  The first run changes nothing
    that a run depends on: it reads its input without changing it, and an
    artifact of an earlier run is overwritten, not an obstacle. *)
Theorem successful_run_can_be_repeated train out w w1 :
  main train out w = (w1, Ok tt) ->
  node_eqb (parse_path train) (report_node out) = false ->
  node_eqb (parse_path train) (model_node out) = false ->
  exists w2,
    main train out w1 = (w2, Ok tt)
    /\ dirs w2 = dirs w1
    /\ (forall n, node_eqb n (report_node out) = false ->
                  node_eqb n (model_node out) = false ->
                  lookup_file w2 n = lookup_file w1 n)
    /\ is_file w2 (report_node out) = true
    /\ is_file w2 (model_node out) = true.
Proof.
  intros Hrun Hr Hm.
  pose proof (main_creates_no_directory _ _ _ _ _ Hrun) as Hdirs.
  destruct (main_ok_state _ _ _ _ Hrun)
    as (Hargs & (d & dir & Ha & Hg) & Hdir & Hnr & Hnm).
  destruct (main_ok_inv _ _ _ _ Hrun) as (X & y & g & Hl & Hs & Hrep & Hmod).
  assert (Hl1 : loaded train w1 = Ok (X, y)).
  { rewrite <- Hl. apply loaded_same.
    - now apply is_dir_dirs.
    - exact (main_files_frame _ _ _ _ _ _ Hrun Hr Hm). }
  destruct (main_completes train out w1 X y g d dir Hl1 Hs) as (w2 & Hrun2).
  - rewrite <- Hdir. now apply is_dir_dirs.
  - rewrite <- Hnr. now apply is_dir_dirs.
  - rewrite <- Hnm. now apply is_dir_dirs.
  - congruence.
  - exact Hg.
  - exists w2. split; [exact Hrun2|].
    split; [exact (main_creates_no_directory _ _ _ _ _ Hrun2)|].
    split; [intros n E1 E2; exact (main_files_frame _ _ _ _ _ _ Hrun2 E1 E2)|].
    destruct (main_ok_inv _ _ _ _ Hrun2) as (X' & y' & g' & _ & _ & Hrep' & Hmod').
    unfold is_file. now rewrite Hrep', Hmod'.
Qed.

(** ** The scores *)

Lemma Qsum_from_nonneg l : forall acc,
  (0 <= acc)%Q -> (forall x, In x l -> (0 <= x)%Q) ->
  (0 <= fold_left (fun a b => Qred (a + b)) l acc)%Q.
Proof.
  induction l as [|a l IH]; cbn [fold_left]; intros acc Ha Hl; [exact Ha|].
  apply IH; [|intros x Hx; apply Hl; now right].
  rewrite Qred_correct. specialize (Hl a (or_introl eq_refl)). lra.
Qed.

Lemma sum_sq_nonneg l : (0 <= sum_sq l)%Q.
Proof.
  unfold sum_sq, Qsum. apply Qsum_from_nonneg; [lra|].
  intros x Hx. apply in_map_iff in Hx as (d & <- & _). rewrite Qred_correct. nra.
Qed.

Lemma Qis_zero_pos q : (0 <= q)%Q -> Qis_zero q = false -> (0 < q)%Q.
Proof.
  unfold Qis_zero, Qle, Qlt. cbn [Qnum Qden]. intros H E.
  apply Z.eqb_neq in E. lia.
Qed.

(** R2 is at most one. *)
Lemma r2_score_le y pred s : r2_score y pred = Ok s -> fle s (Fin 1) = true.
Proof.
  unfold r2_score. destruct (check_target y) as [yt|e]; cbn [rbind]; [|discriminate].
  destruct (negb _); [discriminate|].
  destruct (_ <? 2); [intros H; inversion H; reflexivity|].
  set (num := sum_sq (zip_sub yt pred)). set (den := sum_sq _).
  destruct (Qis_zero num) eqn:En; [intros H; inversion H; reflexivity|].
  destruct (Qis_zero den) eqn:Ed; [intros H; inversion H; reflexivity|].
  intros H. assert (Hs : s = Fin (Qred (1 - num / den))) by congruence.
  subst s. clear H. cbn [fle]. apply Qle_bool_iff. rewrite Qred_correct.
  pose proof (sum_sq_nonneg (zip_sub yt pred)) as Hn. fold num in Hn.
  assert (Hd : (0 < den)%Q) by (apply Qis_zero_pos; [apply sum_sq_nonneg|exact Ed]).
  assert (Hq : (0 <= num / den)%Q) by (apply Qle_shift_div_l; [exact Hd|lra]).
  lra.
Qed.

Lemma fsum_from_le l : forall acc q,
  fold_left fadd l (Fin acc) = Fin q ->
  (forall x, In x l -> fle x (Fin 1) = true) ->
  (q <= acc + inject_Z (Z.of_nat (List.length l)))%Q.
Proof.
  induction l as [|x l IH]; cbn [fold_left List.length]; intros acc q H Hl.
  - inversion H; subst. change (inject_Z (Z.of_nat 0)) with 0%Q. lra.
  - specialize (Hl x (or_introl eq_refl)) as Hx.
    destruct x as [|a]; cbn [fadd] in H; [rewrite fold_fadd_nan in H; discriminate|].
    apply IH in H; [|intros z Hz; apply Hl; now right].
    cbn [fle] in Hx. apply Qle_bool_iff in Hx. rewrite Qred_correct in H.
    rewrite Nat2Z.inj_succ. unfold Z.succ. rewrite inject_Z_plus.
    change (inject_Z 1) with 1%Q. lra.
Qed.

Lemma fmean_le_one l :
  (forall x, In x l -> fle x (Fin 1) = true) -> fle (fmean l) (Fin 1) = true.
Proof.
  intros Hl. unfold fmean, fsum.
  destruct (fold_left fadd l (Fin 0)) as [|q] eqn:E; [reflexivity|].
  apply fsum_from_le in E; [|exact Hl]. unfold of_nat, fdiv.
  destruct (Qis_zero (inject_Z (Z.of_nat (List.length l)))) eqn:Ez; [reflexivity|].
  cbn [fle]. apply Qle_bool_iff. rewrite Qred_correct.
  apply Qle_shift_div_r; [|lra].
  apply Qis_zero_pos; [|exact Ez].
  rewrite <- (Zle_Qle 0). lia.
Qed.

Lemma fit_and_score_le est X y alpha split t tr :
  fit_and_score est (error_value NaN) X y alpha split = Ok (t, tr) ->
  fle t (Fin 1) = true /\ fle tr (Fin 1) = true.
Proof.
  unfold fit_and_score. destruct (pipeline_fit _ _ _) as [est'|e].
  - unfold scorer.
    destruct (pipeline_predict est' (iloc X (snd split))) as [p1|e]; cbn [rbind];
      [|discriminate].
    destruct (r2_score _ p1) as [s1|e] eqn:E1; cbn [rbind]; [|discriminate].
    destruct (pipeline_predict est' (iloc X (fst split))) as [p2|e]; cbn [rbind];
      [|discriminate].
    destruct (r2_score _ p2) as [s2|e] eqn:E2; cbn [rbind]; [|discriminate].
    intros H; inversion H; subst. split; eapply r2_score_le; eassumption.
  - intros H; inversion H. split; reflexivity.
Qed.

Lemma make_rows_in out r :
  In r (make_rows out) ->
  exists alpha scores,
    In (alpha, scores) out
    /\ split_test_score r = map fst scores
    /\ mean_test_score r = fmean (map fst scores)
    /\ split_train_score r = map snd scores
    /\ mean_train_score r = fmean (map snd scores).
Proof.
  unfold make_rows. intros H. apply in_map_iff in H as ([i [alpha scores]] & <- & Hin).
  apply in_combine_r in Hin. exists alpha, scores. cbn. auto.
Qed.

(** X13.  No score of the search exceeds one: every fold score that
    [r2] gives, on the held-out and on the training part, is at most one
    (or NaN for a fold that failed), and so are the means in the report
    and the best score that line 72 prints. *)
Theorem scores_are_at_most_one X y g :
  search X y = Ok g ->
  fle (best_score_ g) (Fin 1) = true
  /\ forall r, In r (report_of g) ->
       fle (mean_test_score r) (Fin 1) = true
       /\ fle (mean_train_score r) (Fin 1) = true
       /\ (forall s, In s (split_test_score r) -> fle s (Fin 1) = true)
       /\ (forall s, In s (split_train_score r) -> fle s (Fin 1) = true).
Proof.
  intros Hs.
  destruct (search_inv _ _ _ Hs)
    as (splits & out & _ & _ & Hout & Hlen & _ & _ & Hres & _ & Hlt & Hbs & _ & _).
  assert (Hfold : forall alpha scores, In (alpha, scores) out ->
             forall t tr, In (t, tr) scores ->
               fle t (Fin 1) = true /\ fle tr (Fin 1) = true).
  { intros alpha scores Hin t tr Ht.
    destruct (mapM_in_rev _ _ _ _ Hout Hin) as (a & _ & Ha).
    unfold evaluate_candidate in Ha.
    destruct (mapM _ splits) as [sc|e] eqn:Em; cbn [rbind] in Ha; [|discriminate].
    inversion Ha; subst.
    destruct (mapM_in_rev _ _ _ _ Em Ht) as (split & _ & Hfs).
    exact (fit_and_score_le _ _ _ _ _ _ _ Hfs). }
  assert (Hrow : forall r, In r (cv_results_ g) ->
             fle (mean_test_score r) (Fin 1) = true
             /\ fle (mean_train_score r) (Fin 1) = true
             /\ (forall s, In s (split_test_score r) -> fle s (Fin 1) = true)
             /\ (forall s, In s (split_train_score r) -> fle s (Fin 1) = true)).
  { intros r Hr. rewrite Hres in Hr.
    destruct (make_rows_in _ _ Hr) as (alpha & scores & Hin & H1 & H2 & H3 & H4).
    assert (Ht : forall s, In s (map fst scores) -> fle s (Fin 1) = true).
    { intros s Hs'. apply in_map_iff in Hs' as ([t tr] & <- & Hp).
      exact (proj1 (Hfold _ _ Hin _ _ Hp)). }
    assert (Htr : forall s, In s (map snd scores) -> fle s (Fin 1) = true).
    { intros s Hs'. apply in_map_iff in Hs' as ([t tr] & <- & Hp).
      exact (proj2 (Hfold _ _ Hin _ _ Hp)). }
    rewrite H1, H2, H3, H4. split; [now apply fmean_le_one|].
    split; [now apply fmean_le_one|]. split; assumption. }
  split.
  - rewrite Hbs.
    assert (Hin : In (nth (best_index_ g) (map mean_test out) NaN) (map mean_test out))
      by (apply nth_In; now rewrite length_map, Hlen).
    apply in_map_iff in Hin as ([alpha scores] & Hm & Hin). rewrite <- Hm.
    unfold mean_test. cbn [snd]. apply fmean_le_one.
    intros s Hs'. apply in_map_iff in Hs' as ([t tr] & <- & Hp).
    exact (proj1 (Hfold _ _ Hin _ _ Hp)).
  - intros r Hr. apply Hrow.
    apply (Permutation_in _ (Permutation_sym
                               (sort_values_perm mean_test_score (cv_results_ g)))).
    exact Hr.
Qed.

(** ** When the pipeline can be fitted, and when the search succeeds *)
















(** ** When a run succeeds *)




End Script.

(** * Worked runs

    The script on the worked data, with the stop-word excerpt, the rational
    square root and exact ridge regression. *)

Lemma search_reviews_ok :
  is_ok (search stop_words_excerpt rational_sqrt exact_ridge
                (features_of reviews) (targets_of reviews)) = true.
Proof. vm_compute. reflexivity. Qed.

Lemma search_terse_ok :
  is_ok (search stop_words_excerpt rational_sqrt exact_ridge
                (features_of terse_reviews) (targets_of terse_reviews)) = true.
Proof. vm_compute. reflexivity. Qed.

Lemma read_cli : read_csv "train.csv" world_cli = (world_cli, Ok reviews).
Proof. reflexivity. Qed.

Lemma drop_reviews :
  drop reviews ([target] ++ drop_features) = Ok (features_of reviews).
Proof. reflexivity. Qed.

Lemma loaded_cli :
  loaded "train.csv" world_cli = Ok (features_of reviews, targets_of reviews).
Proof. reflexivity. Qed.

Lemma loaded_import :
  loaded "train.csv" world_import = Ok (features_of reviews, targets_of reviews).
Proof. reflexivity. Qed.

Lemma loaded_blocked :
  loaded "train.csv" world_blocked = Ok (features_of reviews, targets_of reviews).
Proof. reflexivity. Qed.

Lemma terse_first_fold_fit :
  pipeline_fit stop_words_excerpt rational_sqrt exact_ridge
               (set_params (clone ml_pipe) 500)
               (iloc (features_of terse_reviews) [2; 3; 4; 5; 6; 7; 8; 9])
               (take (Flt NaN) (targets_of terse_reviews) [2; 3; 4; 5; 6; 7; 8; 9])
  = Raise (ValueError "empty vocabulary; perhaps the documents only contain stop words").
Proof. vm_compute. reflexivity. Qed.

Lemma terse_splits :
  kfold_split 5 (List.length (rows (features_of terse_reviews)))
  = Ok [([2; 3; 4; 5; 6; 7; 8; 9], [0; 1]);
        ([0; 1; 4; 5; 6; 7; 8; 9], [2; 3]);
        ([0; 1; 2; 3; 6; 7; 8; 9], [4; 5]);
        ([0; 1; 2; 3; 4; 5; 8; 9], [6; 7]);
        ([0; 1; 2; 3; 4; 5; 6; 7], [8; 9])].
Proof. reflexivity. Qed.

(** In the fresh world the run fails and [out/] is still missing. *)
Lemma fresh_world_run_fails :
  exists w' e,
    main stop_words_excerpt rational_sqrt exact_ridge "train.csv" "out" world_fresh
    = (w', Raise e)
    /\ is_dir w' (parse_path "out") = false.
Proof.
  destruct (main stop_words_excerpt rational_sqrt exact_ridge
                 "train.csv" "out" world_fresh) as [w' r] eqn:E.
  pose proof (main_needs_output_directory _ _ _ "train.csv" "out" world_fresh w' r
                eq_refl E) as Hr.
  pose proof (main_creates_no_directory _ _ _ _ _ _ _ _ E) as Hd.
  destruct r as [[]|e]; [congruence|].
  exists w', e. split; [reflexivity|].
  rewrite (is_dir_dirs w' world_fresh _ Hd). reflexivity.
Qed.

Lemma loaded_terse :
  loaded "train.csv" world_terse
  = Ok (features_of terse_reviews, targets_of terse_reviews).
Proof. reflexivity. Qed.

(** On the terse table the whole run succeeds. *)
Lemma terse_run_succeeds :
  exists w',
    main stop_words_excerpt rational_sqrt exact_ridge "train.csv" "out" world_terse
    = (w', Ok tt).
Proof.
  pose proof search_terse_ok as Hok.
  destruct (search stop_words_excerpt rational_sqrt exact_ridge
                   (features_of terse_reviews) (targets_of terse_reviews))
    as [g|e] eqn:E; [|discriminate].
  exact (main_completes stop_words_excerpt rational_sqrt exact_ridge
           "train.csv" "out" world_terse _ _ g _ "out" loaded_terse E
           eq_refl eq_refl eq_refl eq_refl eq_refl).
Qed.

(** ** The claims on the worked runs *)


Lemma grid_enumerated_exhaustively_witness :
  exists g,
    search stop_words_excerpt rational_sqrt exact_ridge
           (features_of reviews) (targets_of reviews) = Ok g
    /\ map param_ridge__alpha (cv_results_ g)
       = [500; 550; 600; 650; 700; 750; 800; 850; 900; 950]%Z
    /\ List.length (report_of g) = 10.
Proof.
  pose proof search_reviews_ok as Hok.
  destruct (search stop_words_excerpt rational_sqrt exact_ridge
                   (features_of reviews) (targets_of reviews)) as [g|e] eqn:E;
    [|discriminate].
  exists g. split; [reflexivity|].
  destruct (grid_enumerated_exhaustively _ _ _ _ _ g E) as (Hg & Hp & _ & _ & _ & Hl).
  split; [now rewrite Hp, Hg|exact Hl].
Defined.

(** C2 as stated fails: on the terse table the fit of the first fold
    raises for want of a vocabulary, and yet the search succeeds. *)
Lemma fold_errors_not_fatal :
  ~ fold_errors_fatal stop_words_excerpt rational_sqrt exact_ridge
      (features_of terse_reviews) (targets_of terse_reviews).
Proof.
  intros H.
  specialize (H _ 0 0 _ terse_splits ltac:(lia) ltac:(lia) terse_first_fold_fit).
  rewrite search_terse_ok in H. discriminate.
Qed.

Lemma failed_fold_scored_nan_witness :
  exists g,
    search stop_words_excerpt rational_sqrt exact_ridge
           (features_of terse_reviews) (targets_of terse_reviews) = Ok g
    /\ List.length (cv_results_ g) = 10
    /\ (forall j d, j < 10 -> mean_test_score (nth j (cv_results_ g) d) = NaN)
    /\ best_params_ g = 500%Z
    /\ best_score_ g = NaN
    /\ report_of g = cv_results_ g.
Proof.
  pose proof search_terse_ok as Hok.
  destruct (search stop_words_excerpt rational_sqrt exact_ridge
                   (features_of terse_reviews) (targets_of terse_reviews))
    as [g|e] eqn:E; [|discriminate].
  exists g. split; [reflexivity|].
  destruct (proj1 (failed_fold_scored_nan stop_words_excerpt rational_sqrt exact_ridge)
              _ _ g _ 0 0 _ E terse_splits
              ltac:(lia) ltac:(lia) terse_first_fold_fit)
    as (H1 & H2 & _ & H4 & _ & H6 & H7).
  split; [exact H1|]. split; [intros j d Hj; apply (H2 j d Hj)|].
  split; [exact H4|]. split; [exact H6|exact H7].
Defined.

(** C3 as stated fails: with [out/model.pkl] a directory, the run fails
    after the report has been written. *)
Lemma artifacts_not_all_or_nothing :
  ~ all_or_nothing "out" world_blocked
      (fst (main stop_words_excerpt rational_sqrt exact_ridge
                 "train.csv" "out" world_blocked))
      (snd (main stop_words_excerpt rational_sqrt exact_ridge
                 "train.csv" "out" world_blocked)).
Proof.
  pose proof search_reviews_ok as Hok.
  destruct (search stop_words_excerpt rational_sqrt exact_ridge
                   (features_of reviews) (targets_of reviews)) as [g|e] eqn:E;
    [|discriminate].
  destruct (main_stops_at_dump stop_words_excerpt rational_sqrt exact_ridge
              "train.csv" "out" world_blocked _ _ g _ "out" loaded_blocked E
              eq_refl eq_refl eq_refl eq_refl eq_refl) as (w' & Hrun & Hfiles).
  rewrite Hrun. cbn [fst snd]. intros [[H _]|[_ H]]; [discriminate|].
  rewrite Hfiles in H. apply (f_equal (@List.length _)) in H.
  vm_compute in H. discriminate.
Qed.

Lemma artifacts_written_in_sequence_witness :
  exists w',
    main stop_words_excerpt rational_sqrt exact_ridge "train.csv" "out" world_cli
    = (w', Ok tt)
    /\ exists g final_model,
         lookup_file w' (report_node "out") = Some (Report (report_of g))
         /\ lookup_file w' (model_node "out") = Some (Pickle final_model)
         /\ is_dir w' (parse_path "out") = true.
Proof.
  pose proof search_reviews_ok as Hok.
  destruct (search stop_words_excerpt rational_sqrt exact_ridge
                   (features_of reviews) (targets_of reviews)) as [g|e] eqn:E;
    [|discriminate].
  destruct (main_completes stop_words_excerpt rational_sqrt exact_ridge
              "train.csv" "out" world_cli _ _ g _ "out" loaded_cli E
              eq_refl eq_refl eq_refl eq_refl eq_refl) as (w' & Hrun).
  exists w'. split; [exact Hrun|].
  exact (artifacts_written_in_sequence _ _ _ _ _ _ _ _ Hrun).
Defined.

Lemma ordinal_transform_declared_or_error_witness :
  ordinal_transform sentiment_categories
    [Str "neg"; Str "compound"; Str "neu"; Str "pos"] = Ok [0; 1; 2; 3]
  /\ exists e,
       ordinal_transform sentiment_categories [Str "pos"; Str "mixed"] = Raise e
       /\ unknown_category_error e = true.
Proof.
  split.
  - apply (proj1 (ordinal_transform_declared_or_error
                    [Str "neg"; Str "compound"; Str "neu"; Str "pos"])).
    reflexivity.
  - apply (proj2 (ordinal_transform_declared_or_error [Str "pos"; Str "mixed"])).
    reflexivity.
Defined.

Lemma persisted_model_is_best_refit_witness :
  exists w',
    main stop_words_excerpt rational_sqrt exact_ridge "train.csv" "out" world_cli
    = (w', Ok tt)
    /\ exists g final_model,
         search stop_words_excerpt rational_sqrt exact_ridge
                (features_of reviews) (targets_of reviews) = Ok g
         /\ pipeline_fit stop_words_excerpt rational_sqrt exact_ridge
                         (set_params ml_pipe (best_params_ g))
                         (features_of reviews) (targets_of reviews) = Ok final_model
         /\ lookup_file w' (model_node "out") = Some (Pickle final_model).
Proof.
  pose proof search_reviews_ok as Hok.
  destruct (search stop_words_excerpt rational_sqrt exact_ridge
                   (features_of reviews) (targets_of reviews)) as [g0|e] eqn:E0;
    [|discriminate].
  destruct (main_completes stop_words_excerpt rational_sqrt exact_ridge
              "train.csv" "out" world_cli _ _ g0 _ "out" loaded_cli E0
              eq_refl eq_refl eq_refl eq_refl eq_refl) as (w' & Hrun).
  exists w'. split; [exact Hrun|].
  destruct (persisted_model_is_best_refit _ _ _ _ _ _ _ Hrun)
    as (df & X & y & g & fm & Hread & Hdrop & _ & Hy & Hs & _ & Hfit & _ & Hl).
  rewrite read_cli in Hread. inversion Hread; subst df.
  rewrite drop_reviews in Hdrop. inversion Hdrop; subst X.
  change (map (fun r => r target) (rows reviews)) with (targets_of reviews) in Hy.
  subst y. exists g, fm. split; [congruence|]. split; assumption.
Defined.

Lemma main_without_arguments_witness :
  exists w',
    main stop_words_excerpt rational_sqrt exact_ridge "train.csv" "out" world_import
    = (w', Raise (NameError "arguments"))
    /\ is_file w' (report_node "out") = true
    /\ is_file w' (model_node "out") = false
    /\ dirs w' = dirs world_import.
Proof.
  pose proof search_reviews_ok as Hok.
  destruct (search stop_words_excerpt rational_sqrt exact_ridge
                   (features_of reviews) (targets_of reviews)) as [g|e] eqn:E;
    [|discriminate].
  destruct (main stop_words_excerpt rational_sqrt exact_ridge
                 "train.csv" "out" world_import) as [w' r] eqn:Hrun.
  destruct (main_without_arguments _ _ _ "train.csv" "out" world_import w' r
              eq_refl Hrun) as (_ & H).
  destruct (H _ _ g loaded_import E eq_refl eq_refl) as (-> & Hrep & Hmod & Hdirs).
  exists w'. split; [reflexivity|]. unfold is_file. rewrite Hrep, Hmod.
  repeat split; auto.
Defined.

Lemma preprocessor_shape_and_unmodelled_columns_witness :
  exists M,
    preprocessor_transform stop_words_excerpt
      {| vocabulary_ := ["bad"; "good"]; mean_ := Fin 3; scale_ := Fin 2 |}
      (features_of reviews) = Ok M
    /\ List.length M = 10
    /\ Forall (fun row => List.length row = 4) M
    /\ preprocessor_transform stop_words_excerpt
         {| vocabulary_ := ["bad"; "good"]; mean_ := Fin 3; scale_ := Fin 2 |}
         {| columns := columns (features_of reviews);
            rows := map (fun r c => if String.eqb c "Id" then Str "-" else r c)
                        (rows reviews) |} = Ok M.
Proof.
  destruct (preprocessor_shape_and_unmodelled_columns stop_words_excerpt rational_sqrt)
    as (Hshape & Hsame & _).
  destruct (preprocessor_transform stop_words_excerpt
              {| vocabulary_ := ["bad"; "good"]; mean_ := Fin 3; scale_ := Fin 2 |}
              (features_of reviews)) as [M|e] eqn:E.
  - exists M. split; [reflexivity|].
    destruct (Hshape _ _ _ E) as (Hl & Hw).
    split; [exact Hl|]. split; [exact Hw|].
    rewrite <- E. symmetry.
    apply (Hsame _ (features_of reviews)); reflexivity.
  - vm_compute in E. discriminate.
Defined.


Lemma empty_text_counts_zero_witness :
  count_vectorizer_fit stop_words_excerpt max_features
    [Str "good but bad"; Str ""; Str "It was good"] = Ok ["bad"; "good"]
  /\ count_vectorizer_transform stop_words_excerpt ["bad"; "good"] [Str ""]
     = Ok [[0; 0]].
Proof.
  assert (H : count_vectorizer_fit stop_words_excerpt max_features
                [Str "good but bad"; Str ""; Str "It was good"] = Ok ["bad"; "good"])
    by (vm_compute; reflexivity).
  split; [exact H|].
  exact (proj1 (empty_text_counts_zero stop_words_excerpt _ _ H)).
Defined.

(** ** The further properties on the worked runs *)


Lemma output_directory_is_never_created_witness :
  is_dir world_fresh (parse_path "out") = false
  /\ snd (main stop_words_excerpt rational_sqrt exact_ridge
               "train.csv" "out" world_fresh) <> Ok tt
  /\ files (fst (main stop_words_excerpt rational_sqrt exact_ridge
                      "train.csv" "out" world_fresh)) = files world_fresh.
Proof.
  split; [reflexivity|].
  exact (proj2 (output_directory_is_never_created stop_words_excerpt rational_sqrt
                  exact_ridge "train.csv" "out" world_fresh) eq_refl).
Defined.

Lemma missing_column_is_key_error_witness :
  exists key,
    main stop_words_excerpt rational_sqrt exact_ridge
         "train.csv" "out" (world_with anonymous_reviews)
    = (world_with anonymous_reviews, Raise (KeyError key))
    /\ In key ["Rating"; "Id"; "Author"]
    /\ has_column anonymous_reviews key = false.
Proof.
  exact (missing_column_is_key_error stop_words_excerpt rational_sqrt exact_ridge
           "train.csv" "out" (world_with anonymous_reviews) anonymous_reviews
           eq_refl eq_refl).
Defined.

Lemma loaded_mixed :
  loaded "train.csv" (world_with mixed_reviews)
  = Ok (features_of mixed_reviews, targets_of mixed_reviews).
Proof. reflexivity. Qed.

Lemma invalid_table_fails_before_any_artifact_witness :
  exists w' e,
    main stop_words_excerpt rational_sqrt exact_ridge
         "train.csv" "out" (world_with mixed_reviews) = (w', Raise e)
    /\ files w' = files (world_with mixed_reviews)
    /\ dirs w' = dirs (world_with mixed_reviews).
Proof.
  exact (invalid_table_fails_before_any_artifact
           stop_words_excerpt rational_sqrt exact_ridge
           "train.csv" "out" (world_with mixed_reviews)
           (features_of mixed_reviews) (targets_of mixed_reviews)
           loaded_mixed eq_refl).
Defined.

Lemma loaded_few :
  loaded "train.csv" (world_with few_reviews)
  = Ok (features_of few_reviews, targets_of few_reviews).
Proof. reflexivity. Qed.

Lemma fewer_rows_than_folds_witness :
  exists w' msg,
    main stop_words_excerpt rational_sqrt exact_ridge
         "train.csv" "out" (world_with few_reviews) = (w', Raise (ValueError msg))
    /\ files w' = files (world_with few_reviews)
    /\ dirs w' = dirs (world_with few_reviews).
Proof.
  exact (fewer_rows_than_folds stop_words_excerpt rational_sqrt exact_ridge
           "train.csv" "out" (world_with few_reviews)
           (features_of few_reviews) (targets_of few_reviews)
           loaded_few ltac:(simpl; lia)).
Defined.

Lemma fit_reviews_ok :
  is_ok (pipeline_fit stop_words_excerpt rational_sqrt exact_ridge
                      ml_pipe (features_of reviews) (targets_of reviews)) = true.
Proof. vm_compute. reflexivity. Qed.

Lemma fitted_pipeline_predicts_witness :
  exists f preds,
    pipeline_fit stop_words_excerpt rational_sqrt exact_ridge
                 ml_pipe (features_of reviews) (targets_of reviews) = Ok f
    /\ pipeline_predict stop_words_excerpt f (features_of terse_reviews) = Ok preds
    /\ List.length preds = 10.
Proof.
  pose proof fit_reviews_ok as Hok.
  destruct (pipeline_fit stop_words_excerpt rational_sqrt exact_ridge
                         ml_pipe (features_of reviews) (targets_of reviews))
    as [f|e] eqn:E; [|discriminate].
  destruct (fitted_pipeline_predicts stop_words_excerpt rational_sqrt exact_ridge
              ml_pipe (features_of reviews) (targets_of reviews) f
              (features_of terse_reviews) E eq_refl eq_refl) as (preds & Hp & Hl).
  exists f, preds. split; [reflexivity|]. split; assumption.
Defined.

Lemma loaded_shell :
  loaded "train.csv" world_shell = Ok (features_of reviews, targets_of reviews).
Proof. reflexivity. Qed.

Lemma entry_point_saves_model_witness :
  exists w' g,
    entry_point stop_words_excerpt rational_sqrt exact_ridge
                ["train.csv"; "out"] world_shell = (w', Ok tt)
    /\ lookup_file w' (model_node "out") = Some (Pickle (best_estimator_ g))
    /\ In (Echo "Writing model to directory: out") (stdout w').
Proof.
  pose proof search_reviews_ok as Hok.
  destruct (search stop_words_excerpt rational_sqrt exact_ridge
                   (features_of reviews) (targets_of reviews)) as [g|e] eqn:E;
    [|discriminate].
  destruct (entry_point_saves_model stop_words_excerpt rational_sqrt exact_ridge
              "train.csv" "out" world_shell _ _ g eq_refl eq_refl loaded_shell E
              eq_refl eq_refl eq_refl) as (w' & Hrun & _ & Hmod & Hout).
  exists w', g. split; [exact Hrun|]. split; [exact Hmod|exact Hout].
Defined.

Lemma artifacts_are_siblings_inside_out_witness :
  report_node "out/" = report_node "out"
  /\ model_node "out/" = model_node "out".
Proof.
  exact (proj2 (proj2 (proj2 (artifacts_are_siblings_inside_out "out"))) eq_refl).
Defined.

Lemma report_starts_with_best_score_witness :
  exists g r rest,
    search stop_words_excerpt rational_sqrt exact_ridge
           (features_of reviews) (targets_of reviews) = Ok g
    /\ report_of g = r :: rest
    /\ rank_test_score r = 1.
Proof.
  pose proof search_reviews_ok as Hok.
  destruct (search stop_words_excerpt rational_sqrt exact_ridge
                   (features_of reviews) (targets_of reviews)) as [g|e] eqn:E;
    [|discriminate].
  destruct (report_starts_with_best_score stop_words_excerpt rational_sqrt
              exact_ridge _ _ g E) as (r & rest & Hr & _ & _ & Hrank).
  exists g, r, rest. split; [reflexivity|]. split; assumption.
Defined.


Lemma kfold_holds_out_every_row_once_witness :
  exists splits,
    kfold_split 5 12 = Ok splits
    /\ List.length splits = 5
    /\ List.concat (map snd splits) = seq 0 12.
Proof.
  eexists. split; [reflexivity|].
  destruct (kfold_holds_out_every_row_once 5 12 _ ltac:(lia) eq_refl) as (H1 & H2 & _).
  split; assumption.
Defined.

Lemma successful_run_can_be_repeated_witness :
  exists w1 w2,
    main stop_words_excerpt rational_sqrt exact_ridge "train.csv" "out" world_cli
    = (w1, Ok tt)
    /\ main stop_words_excerpt rational_sqrt exact_ridge "train.csv" "out" w1
       = (w2, Ok tt)
    /\ dirs w2 = dirs w1
    /\ is_file w2 (report_node "out") = true
    /\ is_file w2 (model_node "out") = true.
Proof.
  pose proof search_reviews_ok as Hok.
  destruct (search stop_words_excerpt rational_sqrt exact_ridge
                   (features_of reviews) (targets_of reviews)) as [g|e] eqn:E;
    [|discriminate].
  destruct (main_completes stop_words_excerpt rational_sqrt exact_ridge
              "train.csv" "out" world_cli _ _ g _ "out" loaded_cli E
              eq_refl eq_refl eq_refl eq_refl eq_refl) as (w1 & Hrun).
  destruct (successful_run_can_be_repeated stop_words_excerpt rational_sqrt
              exact_ridge "train.csv" "out" world_cli w1 Hrun eq_refl eq_refl)
    as (w2 & Hrun2 & Hd & _ & Hrep & Hmod).
  exists w1, w2. split; [exact Hrun|]. split; [exact Hrun2|].
  split; [exact Hd|]. split; assumption.
Defined.

Lemma scores_are_at_most_one_witness :
  exists g,
    search stop_words_excerpt rational_sqrt exact_ridge
           (features_of reviews) (targets_of reviews) = Ok g
    /\ fle (best_score_ g) (Fin 1) = true.
Proof.
  pose proof search_reviews_ok as Hok.
  destruct (search stop_words_excerpt rational_sqrt exact_ridge
                   (features_of reviews) (targets_of reviews)) as [g|e] eqn:E;
    [|discriminate].
  exists g. split; [reflexivity|].
  exact (proj1 (scores_are_at_most_one stop_words_excerpt rational_sqrt exact_ridge
                  _ _ g E)).
Defined.

